(** * nq2-renderer: the tile-layer derivation of [renderer.py]

    A shallow embedding of [MapRenderer] (construction, [get_tile_at],
    [get_neighbors], [tile_mapper]) and the properties of the
    specification that concern it.

    - Python integers are [Z]; [|] is [Z.lor], [//] is [Z.div].
    - Strings are [string], one [ascii] standing for one character; the
      one-character string obtained by indexing a row is again a
      [string], as in Python.
    - The [tiles] dictionary of a map is a [gmap string string]. The
      [defaultdict(list)] that [tile_mapper] builds is an association
      list in insertion order, the order in which [render] walks
      [items()].
    - Exceptions ([IndexError], [KeyError]) are the [Raise] results of
      the [result] monad; a loop is a fold in that monad whose body is
      the source's loop body, [continue] being an early [Ok].
    - Reading the JSON file, fetching sprites and compositing the image
      are outside the embedding: [init] starts from the loaded map, and
      of [get_tile] only the choice of the sprite name is kept. *)

From stdpp Require Import base gmap strings list.

(* stdpp's solvers clear hypotheses that are sometimes already gone *)
Set Warnings "-clear-no-such-hyp".

Local Open Scope string_scope.
Local Open Scope list_scope.
Local Open Scope Z_scope.

(** ** Exceptions *)

Inductive exn : Type :=
| IndexError
| KeyError.

Inductive result (A : Type) : Type :=
| Ok (a : A)
| Raise (e : exn).
Arguments Ok {A} a.
Arguments Raise {A} e.

#[global] Instance result_ret : MRet result := λ A a, Ok a.
#[global] Instance result_bind : MBind result := λ A B f ma,
  match ma with
  | Ok a => f a
  | Raise e => Raise e
  end.
#[global] Instance result_fmap : FMap result := λ A B f ma,
  match ma with
  | Ok a => Ok (f a)
  | Raise e => Raise e
  end.

(** A [for] loop whose body may raise: the state is threaded through
    the iterations, the first exception ends the loop. *)
Fixpoint for_each {A S : Type} (body : A → S → result S) (l : list A) (s : S)
  : result S :=
  match l with
  | [] => Ok s
  | a :: rest => s' ← body a s; for_each body rest s'
  end.

(** ** Python primitives *)

(** [seq[i]] on a sequence of length [len]: negative indices count from
    the end, anything outside [-len .. len-1] raises [IndexError]. *)
Definition py_index (len i : Z) : result nat :=
  if bool_decide (0 ≤ i < len) then Ok (Z.to_nat i)
  else if bool_decide (- len ≤ i < 0) then Ok (Z.to_nat (i + len))
  else Raise IndexError.

Definition list_getitem {A : Type} (l : list A) (i : Z) : result A :=
  k ← py_index (Z.of_nat (length l)) i;
  match l !! k with
  | Some a => Ok a
  | None => Raise IndexError
  end.

Definition str_getitem (s : string) (i : Z) : result string :=
  k ← py_index (Z.of_nat (String.length s)) i;
  match String.get k s with
  | Some c => Ok (String c EmptyString)
  | None => Raise IndexError
  end.

(** [d[k]] on a dictionary. *)
Definition dict_getitem (d : gmap string string) (k : string) : result string :=
  match d !! k with
  | Some v => Ok v
  | None => Raise KeyError
  end.

(** [range(a, b)] *)
Definition range (a b : Z) : list Z :=
  (λ i : nat, a + Z.of_nat i) <$> seq 0 (Z.to_nat (b - a)).

(** [itertools.product(xs, ys)]: the first component varies slowest. *)
Definition product {A B : Type} (xs : list A) (ys : list B) : list (A * B) :=
  x ← xs; (λ y, (x, y)) <$> ys.

(** [enumerate(l)] *)
Definition enumerate {A : Type} (l : list A) : list (nat * A) :=
  zip (seq 0 (length l)) l.

(** ** Data model *)

Definition TILE_SIZE : Z := 40.

Definition WATER_EDGE_CANCELERS : list string :=
  ["wtr"; "cld"; "scld"; "fc_1"; "fc_2"; "fc_3"; "fc_4"; "fc_6"; "fc_7";
   "fc_8"; "fc_9"].

(** [class Map(TypedDict)] *)
Record Map : Type := mkMap {
  m_default : string;
  m_border : string;
  m_tiles : gmap string string;
  m_layers : list (list string)
}.

(** [@dataclass class RenderTile] *)
Record RenderTile : Type := mkRenderTile {
  rt_x : Z;
  rt_y : Z;
  rt_z : Z;
  rt_tile : string;
  rt_out_of_bounds : bool
}.

#[global] Instance RenderTile_eq_dec : EqDecision RenderTile.
Proof. solve_decision. Defined.

(** The attributes [__init__] sets on a [MapRenderer]. *)
Record MapRenderer : Type := mkMapRenderer {
  r_map : Map;
  rows : Z;
  cols : Z;
  visibility : Z;
  radius : Z;
  r_x : Z;
  r_y : Z;
  render_water_edges : bool
}.

(** [MapRenderer.__init__], from the map the JSON file holds. *)
Definition init (m : Map) (x y vis : Z) (rwe : bool) : result MapRenderer :=
  layer0 ← list_getitem (m_layers m) 0;
  let rows := Z.of_nat (length layer0) in
  row0 ← list_getitem layer0 0;
  let cols := Z.of_nat (String.length row0) in
  let visibility := Z.lor vis 1 in
  let radius := visibility `div` 2 in
  Ok (mkMapRenderer m rows cols visibility radius x y rwe).

(** The file stem [get_tile] opens for a tile reference: the mapped
    sprite when the dictionary has a non-empty one, the reference itself
    otherwise. *)
Definition get_tile_name (r : MapRenderer) (tile_type : string) : string :=
  match m_tiles (r_map r) !! tile_type with
  | Some t => if bool_decide (t = "") then tile_type else t
  | None => tile_type
  end.

(** The test [x < 0 or y < 0 or x >= self.cols or y >= self.rows]. *)
Definition is_out_of_bounds (r : MapRenderer) (x y : Z) : bool :=
  (x <? 0) || (y <? 0) || (cols r <=? x) || (rows r <=? y).

(** [self.map["layers"][z][y][x]] *)
Definition grid_symbol (m : Map) (z y x : Z) : result string :=
  layer ← list_getitem (m_layers m) z;
  row ← list_getitem layer y;
  str_getitem row x.

(** [MapRenderer.get_tile_at] *)
Definition get_tile_at (r : MapRenderer) (x y z : Z) : result RenderTile :=
  if is_out_of_bounds r x y then
    Ok (mkRenderTile x y z (m_border (r_map r)) true)
  else
    tile ← grid_symbol (r_map r) z y x;
    Ok (mkRenderTile x y z tile false).

(** [MapRenderer.get_neighbors]: the list display evaluates its eight
    elements from first to last. *)
Definition get_neighbors (r : MapRenderer) (x y z : Z) : result (list RenderTile) :=
  n ← get_tile_at r x (y - 1) z;
  s ← get_tile_at r x (y + 1) z;
  e ← get_tile_at r (x + 1) y z;
  w ← get_tile_at r (x - 1) y z;
  nw ← get_tile_at r (x - 1) (y - 1) z;
  sw ← get_tile_at r (x - 1) (y + 1) z;
  se ← get_tile_at r (x + 1) (y + 1) z;
  ne ← get_tile_at r (x + 1) (y - 1) z;
  Ok [n; s; e; w; nw; sw; se; ne].

(** ** The layer collection

    [layers: DefaultDict[int, List[RenderTile]]], keys in insertion
    order. *)
Definition Layers : Type := list (Z * list RenderTile).

(** [len(layers)] *)
Definition layers_len (layers : Layers) : Z := Z.of_nat (length layers).

(** [layers[k].append(t)]: a missing key is first inserted (last) with
    an empty list. *)
Fixpoint layers_append (k : Z) (t : RenderTile) (layers : Layers) : Layers :=
  match layers with
  | [] => [(k, [t])]
  | (k', ts) :: rest =>
      if bool_decide (k = k') then (k', ts ++ [t]) :: rest
      else (k', ts) :: layers_append k t rest
  end.

(** [layers[len(layers) + 1].append(t)], the statement that adds a
    cap. *)
Definition add_cap (layers : Layers) (t : RenderTile) : Layers :=
  layers_append (layers_len layers + 1) t layers.

(** The keys in use, in insertion order. *)
Definition layer_keys (layers : Layers) : list Z := fst <$> layers.

(** Every tile of the collection, layer after layer. *)
Definition all_tiles (layers : Layers) : list RenderTile :=
  concat (snd <$> layers).

(** ** The edge and cap classifier *)

(** [self.map["tiles"].get(sym) or self.map["tiles"][self.map["default"]]]:
    [or] falls through on [None] and on the empty string. *)
Definition tile_name_of (m : Map) (sym : string) : result string :=
  match m_tiles m !! sym with
  | Some t =>
      if bool_decide (t = "") then dict_getitem (m_tiles m) (m_default m)
      else Ok t
  | None => dict_getitem (m_tiles m) (m_default m)
  end.

(** [water_lookup = {0: "n", 1: "s", 2: "e", 3: "w"}], subscripted. *)
Definition water_lookup (index : nat) : result string :=
  match index with
  | 0%nat => Ok "n"
  | 1%nat => Ok "s"
  | 2%nat => Ok "e"
  | 3%nat => Ok "w"
  | _ => Raise KeyError
  end.

(** Body of [for index, neighbor in enumerate(neighbors[:4])]. *)
Definition edge_body (m : Map) (ix : nat * RenderTile) (water_edges : list string)
  : result (list string) :=
  let '(index, neighbor) := ix in
  tile_name ←
    (if rt_out_of_bounds neighbor then Ok "wtr"
     else tile_name_of m (rt_tile neighbor));
  if bool_decide (tile_name ∈ WATER_EDGE_CANCELERS) then Ok water_edges
  else code ← water_lookup index; Ok (water_edges ++ [code]).

(** The characters of a string, each as a string. *)
Fixpoint chars (s : string) : list string :=
  match s with
  | EmptyString => []
  | String c rest => String c EmptyString :: chars rest
  end.

(** Body of [for index, edge_letter in enumerate("acdb")]. *)
Definition cap_body (m : Map) (ordinal : list RenderTile) (x_out y_out z_index : Z)
    (il : nat * string) (layers : Layers) : result Layers :=
  let '(index, edge_letter) := il in
  o ← list_getitem ordinal (Z.of_nat index);
  if rt_out_of_bounds o then Ok layers
  else
    tile_name ← tile_name_of m (rt_tile o);
    if bool_decide (tile_name ∈ WATER_EDGE_CANCELERS) then Ok layers
    else
      Ok (add_cap layers
            (mkRenderTile x_out y_out z_index ("wtrc_" +:+ edge_letter) false)).

(** The branch [if tile_name == "wtr":] of the loop body: the tile to
    draw and the layers after the caps were added. *)
Definition water_case (r : MapRenderer) (x y z_index x_out y_out : Z)
    (tile : string) (layers : Layers) : result (string * Layers) :=
  neighbors ← get_neighbors r x y z_index;
  water_edges ← for_each (edge_body (r_map r)) (enumerate (take 4 neighbors)) [];
  let edges_str := String.concat "" water_edges in
  let tile := if bool_decide (edges_str = "") then tile else "wtr_" +:+ edges_str in
  let ordinal := drop 4 neighbors in
  layers ← for_each (cap_body (r_map r) ordinal x_out y_out z_index)
             (enumerate (chars "acdb")) layers;
  Ok (tile, layers).

(** ** The layer assembler *)

(** Body of the loop over [(x, y)] at one z-level. *)
Definition cell_body (r : MapRenderer) (x_origin y_origin z_index : Z)
    (xy : Z * Z) (layers : Layers) : result Layers :=
  let '(x, y) := xy in
  let out_of_bounds := is_out_of_bounds r x y in
  let x_out := (x - x_origin) * TILE_SIZE in
  let y_out := (y - y_origin) * TILE_SIZE in
  if bool_decide (z_index = 0) && out_of_bounds then
    Ok (layers_append z_index
          (mkRenderTile x_out y_out z_index (m_border (r_map r)) true) layers)
  else if out_of_bounds then Ok layers
  else
    tile ← grid_symbol (r_map r) z_index y x;
    if bool_decide (tile = " ") then Ok layers
    else if negb (render_water_edges r) then Ok layers
    else
      '(tile, layers) ←
        (if bool_decide (m_tiles (r_map r) !! tile = Some "wtr") then
           water_case r x y z_index x_out y_out tile layers
         else Ok (tile, layers));
      Ok (layers_append z_index
            (mkRenderTile x_out y_out z_index tile false) layers).

(** The coordinate range [(x_origin, y_origin, x_max, y_max)]. *)
Definition bounds (r : MapRenderer) (full_map : bool) : Z * Z * Z * Z :=
  if full_map then (0, 0, cols r, rows r)
  else (- radius r + r_x r, - radius r + r_y r,
        radius r + r_x r + 1, radius r + r_y r + 1).

(** The cells one z-level visits, in visiting order. *)
Definition cells (r : MapRenderer) (full_map : bool) : list (Z * Z) :=
  let '(x_origin, y_origin, x_max, y_max) := bounds r full_map in
  product (range x_origin x_max) (range y_origin y_max).

Definition x_origin (r : MapRenderer) (full_map : bool) : Z :=
  (bounds r full_map).1.1.1.
Definition y_origin (r : MapRenderer) (full_map : bool) : Z :=
  (bounds r full_map).1.1.2.

(** [MapRenderer.tile_mapper] *)
Definition tile_mapper (r : MapRenderer) (full_map : bool) : result Layers :=
  let '(x_origin, y_origin, x_max, y_max) := bounds r full_map in
  for_each
    (λ z_index layers,
       for_each (cell_body r x_origin y_origin z_index)
         (product (range x_origin x_max) (range y_origin y_max)) layers)
    (range 0 (Z.of_nat (length (m_layers (r_map r))))) [].

(** ** Sample maps *)

Definition sample_tiles : gmap string string :=
  {[ "w" := "wtr"; "g" := "grs"; "c" := "cld" ]}.

(** One water cell. *)
Definition pond : Map := mkMap "g" "w" sample_tiles [["w"]].

(** Water in the middle of a 3×3 meadow whose south half is water. *)
Definition lake : Map := mkMap "g" "g" sample_tiles [["ggg"; "gwg"; "www"]].

(** Three z-levels, the two lower ones blank: grass, then water whose
    north-west neighbor is that grass. *)
Definition overlay : Map :=
  mkMap "g" "g" sample_tiles [["  "; "  "]; ["  "; "  "]; ["g "; " w"]].

(** Two z-levels: water in the first visited cell of the ground, a
    cloud above it. *)
Definition stacked : Map :=
  mkMap "g" "g" sample_tiles [["wg"; "gg"]; ["c "; "  "]].

Definition run (m : Map) (x y vis : Z) (rwe full_map : bool) : result Layers :=
  r ← init m x y vis rwe; tile_mapper r full_map.

(** The renderers [init] builds for the samples (default arguments). *)
Definition pond_renderer : MapRenderer := mkMapRenderer pond 1 1 9 4 0 0 true.
Definition lake_renderer : MapRenderer := mkMapRenderer lake 3 3 9 4 0 0 true.

(** [lake] seen from its south-east corner with a visibility of 2,
    which [init] makes 3: the window starts at cell (1, 1). *)
Definition lake_window : MapRenderer := mkMapRenderer lake 3 3 3 1 2 2 true.

(** The same window with edge rendering off. *)
Definition lake_window_off : MapRenderer := mkMapRenderer lake 3 3 3 1 2 2 false.

(** Water whose neighbors are water, a cloud (north) and a blank cell
    (south) that falls back to the default category, here water. *)
Definition sea : Map := mkMap "w" "w" sample_tiles [["wcw"; "www"; "w w"]].
Definition sea_renderer : MapRenderer := mkMapRenderer sea 3 3 9 4 0 0 true.

(** Water beside a blank cell, on a map whose default category ["?"]
    has no sprite. *)
Definition strand : Map := mkMap "?" "g" sample_tiles [["w "]].
Definition strand_renderer : MapRenderer := mkMapRenderer strand 1 2 9 4 0 0 true.

(** ** Well-formed maps *)

(** The number of z-levels. *)
Definition depth (r : MapRenderer) : Z := Z.of_nat (length (m_layers (r_map r))).

(** Every z-level has [rows] rows of [cols] characters. *)
Definition rectangular (r : MapRenderer) : Prop :=
  Forall (λ layer : list string,
            Z.of_nat (length layer) = rows r ∧
            Forall (λ row, Z.of_nat (String.length row) = cols r) layer)
         (m_layers (r_map r)).

(** The default category has a sprite. *)
Definition default_mapped (r : MapRenderer) : Prop :=
  is_Some (m_tiles (r_map r) !! m_default (r_map r)).

(** ** What the classifier is specified to compute *)

(** An edge or a cap is drawn against a neighbor that lies inside the
    grid and whose sprite (its own, or the default category's) is not
    edge-canceling. *)
Definition draws_against (m : Map) (nb : RenderTile) : Prop :=
  rt_out_of_bounds nb = false ∧
  ∃ name, tile_name_of m (rt_tile nb) = Ok name ∧ name ∉ WATER_EDGE_CANCELERS.

Definition opens (m : Map) (nb : RenderTile) : bool :=
  negb (rt_out_of_bounds nb) &&
  match tile_name_of m (rt_tile nb) with
  | Ok name => bool_decide (name ∉ WATER_EDGE_CANCELERS)
  | Raise _ => false
  end.

(** Looking up the neighbor's sprite raises nothing. *)
Definition resolves (m : Map) (nb : RenderTile) : Prop :=
  rt_out_of_bounds nb = true ∨ ∃ name, tile_name_of m (rt_tile nb) = Ok name.

Definition code_if (b : bool) (letter : string) : list string :=
  if b then [letter] else [].

(** Edge codes of a water cell with cardinal neighbors [n], [s], [e],
    [w]. *)
Definition edge_codes (m : Map) (n s e w : RenderTile) : list string :=
  code_if (opens m n) "n" ++ code_if (opens m s) "s" ++
  code_if (opens m e) "e" ++ code_if (opens m w) "w".

(** The tile reference of a water cell of symbol [sym] with these edge
    codes. *)
Definition water_tile (sym : string) (codes : list string) : string :=
  let edges_str := String.concat "" codes in
  if bool_decide (edges_str = "") then sym else "wtr_" +:+ edges_str.

(** Caps of a water cell drawn at [(x_out, y_out)] with diagonal
    neighbors [nw], [sw], [se], [ne]. *)
Definition cap_tiles (m : Map) (x_out y_out z_index : Z) (nw sw se ne : RenderTile)
  : list RenderTile :=
  (λ letter, mkRenderTile x_out y_out z_index ("wtrc_" +:+ letter) false) <$>
  (code_if (opens m nw) "a" ++ code_if (opens m sw) "c" ++
   code_if (opens m se) "d" ++ code_if (opens m ne) "b").

(** Every key in use lies between 0 and the number of keys: what the
    runs over a single z-level maintain. *)
Definition keys_bounded (layers : Layers) : Prop :=
  ∀ k, k ∈ layer_keys layers → 0 ≤ k ≤ layers_len layers.

(** ** The tiles of one cell *)

(** The tiles cell [(x, y)] of z-level [z_index] yields, at the pixel
    positions of the full map: the loop body run on its own. *)
Definition cell_tiles (r : MapRenderer) (z_index x y : Z) : result (list RenderTile) :=
  all_tiles <$> cell_body r 0 0 z_index (x, y) [].

(** A tile moved to the pixel frame whose origin is the cell
    [(x_origin, y_origin)]. *)
Definition shift_tile (x_origin y_origin : Z) (t : RenderTile) : RenderTile :=
  mkRenderTile (rt_x t - x_origin * TILE_SIZE) (rt_y t - y_origin * TILE_SIZE)
    (rt_z t) (rt_tile t) (rt_out_of_bounds t).

(** A tile drawn for cell [(x, y)] of z-level [z], full-map frame. *)
Definition at_cell (x y z : Z) (t : RenderTile) : Prop :=
  rt_x t = x * TILE_SIZE ∧ rt_y t = y * TILE_SIZE ∧ rt_z t = z.

(** ** The canvas of [render]

    Of [render] the sizes and the slots of the background fill are
    embedded; the pixels are the imaging library's. *)

(** [range(a, b, step)] for a positive [step]. *)
Definition range_step (a b step : Z) : list Z :=
  (λ i : nat, a + Z.of_nat i * step) <$> seq 0 (Z.to_nat ((b - a + step - 1) `div` step)).

(** [image_size] *)
Definition image_size (r : MapRenderer) (full_map : bool) : Z * Z :=
  if full_map then (cols r * TILE_SIZE, rows r * TILE_SIZE)
  else (visibility r * TILE_SIZE, visibility r * TILE_SIZE).

(** The positions at which the base layer receives the default tile:
    [itertools.product(range(0, image_size[0], TILE_SIZE),
    range(0, image_size[1], TILE_SIZE))]. *)
Definition fill_positions (r : MapRenderer) (full_map : bool) : list (Z * Z) :=
  product (range_step 0 (image_size r full_map).1 TILE_SIZE)
          (range_step 0 (image_size r full_map).2 TILE_SIZE).

(** The border tile drawn for a cell outside the grid. *)
Definition border_tile (r : MapRenderer) (x_origin y_origin : Z) (xy : Z * Z)
  : RenderTile :=
  mkRenderTile ((xy.1 - x_origin) * TILE_SIZE) ((xy.2 - y_origin) * TILE_SIZE) 0
    (m_border (r_map r)) true.

(** The sprite references of the caps. *)
Definition cap_names : list string := ["wtrc_a"; "wtrc_c"; "wtrc_d"; "wtrc_b"].



(** * Properties *)

(** ** The [result] monad and the primitives *)

(** Reduce the binds of a computation whose head has been evaluated,
    and nothing else. *)
Ltac run_bind := cbn [mbind result_bind mret result_ret fmap result_fmap].

Lemma bind_Ok {A B : Type} (f : A → result B) (ma : result A) (b : B) :
  ma ≫= f = Ok b ↔ ∃ a, ma = Ok a ∧ f a = Ok b.
Proof.
  destruct ma as [a|e]; simpl; split.
  - intros H. by exists a.
  - by intros (a' & [= ->] & H).
  - done.
  - by intros (a' & [=] & _).
Qed.

Lemma py_index_nonneg (len i : Z) :
  0 ≤ i < len → py_index len i = Ok (Z.to_nat i).
Proof. intros H. unfold py_index. by rewrite bool_decide_eq_true_2. Qed.

Lemma py_index_in_range (len i : Z) :
  - len ≤ i < len → ∃ k : nat, py_index len i = Ok k ∧ Z.of_nat k < len.
Proof.
  intros H. unfold py_index.
  destruct (decide (0 ≤ i)) as [Hi|Hi].
  - rewrite bool_decide_eq_true_2 by lia. eexists; split; [done|lia].
  - rewrite bool_decide_eq_false_2, bool_decide_eq_true_2 by lia.
    eexists; split; [done|lia].
Qed.

Lemma py_index_out_of_range (len i : Z) :
  ¬ (- len ≤ i < len) → 0 ≤ len → py_index len i = Raise IndexError.
Proof.
  intros H Hlen. unfold py_index.
  by rewrite !bool_decide_eq_false_2 by lia.
Qed.

Lemma list_getitem_nonneg {A : Type} (l : list A) (i : Z) (a : A) :
  0 ≤ i → list_getitem l i = Ok a ↔ l !! Z.to_nat i = Some a.
Proof.
  intros Hi. unfold list_getitem.
  destruct (decide (i < Z.of_nat (length l))) as [Hlt|Hge].
  - rewrite py_index_nonneg by lia. simpl.
    destruct (l !! Z.to_nat i); naive_solver.
  - rewrite py_index_out_of_range by lia. simpl.
    rewrite lookup_ge_None_2 by lia. naive_solver.
Qed.

Lemma list_getitem_in_range {A : Type} (l : list A) (i : Z) :
  - Z.of_nat (length l) ≤ i < Z.of_nat (length l) →
  ∃ a, list_getitem l i = Ok a ∧ a ∈ l.
Proof.
  intros H. unfold list_getitem.
  destruct (py_index_in_range _ _ H) as (k & -> & Hk). simpl.
  destruct (lookup_lt_is_Some_2 l k) as [a Ha]; [lia|].
  rewrite Ha. eexists; split; [done|]. by eapply list_elem_of_lookup_2.
Qed.

Lemma list_getitem_out_of_range {A : Type} (l : list A) (i : Z) :
  ¬ (- Z.of_nat (length l) ≤ i < Z.of_nat (length l)) →
  list_getitem l i = Raise IndexError.
Proof.
  intros H. unfold list_getitem. by rewrite py_index_out_of_range by lia.
Qed.

Lemma string_get_lt (s : string) (k : nat) :
  (k < String.length s)%nat → ∃ c, String.get k s = Some c.
Proof.
  revert k. induction s as [|c s IH]; intros k Hk; simpl in *; [lia|].
  destruct k as [|k]; [by eexists|]. apply IH. lia.
Qed.

Lemma str_getitem_in_range (s : string) (i : Z) :
  - Z.of_nat (String.length s) ≤ i < Z.of_nat (String.length s) →
  ∃ c, str_getitem s i = Ok c.
Proof.
  intros H. unfold str_getitem.
  destruct (py_index_in_range _ _ H) as (k & -> & Hk). simpl.
  destruct (string_get_lt s k) as [c ->]; [lia|]. by eexists.
Qed.

Lemma str_getitem_nonneg (s : string) (i : Z) (c : Ascii.ascii) :
  0 ≤ i → String.get (Z.to_nat i) s = Some c →
  str_getitem s i = Ok (String c EmptyString).
Proof.
  intros Hi Hc. unfold str_getitem.
  assert (Z.to_nat i < String.length s)%nat.
  { revert Hc. generalize (Z.to_nat i). clear.
    induction s as [|a s IH]; intros [|k]; simpl; try done; try lia.
    intros H. specialize (IH _ H). lia. }
  rewrite py_index_nonneg by lia. simpl. by rewrite Hc.
Qed.

(** ** The grid accessor *)

Lemma is_out_of_bounds_true (r : MapRenderer) (x y : Z) :
  is_out_of_bounds r x y = true ↔ x < 0 ∨ y < 0 ∨ cols r ≤ x ∨ rows r ≤ y.
Proof. unfold is_out_of_bounds. rewrite !orb_true_iff. lia. Qed.

Lemma is_out_of_bounds_false (r : MapRenderer) (x y : Z) :
  is_out_of_bounds r x y = false ↔ 0 ≤ x < cols r ∧ 0 ≤ y < rows r.
Proof.
  rewrite <-not_true_iff_false, is_out_of_bounds_true. lia.
Qed.

Lemma grid_symbol_in_range (r : MapRenderer) (x y z : Z) :
  rectangular r → - depth r ≤ z < depth r →
  is_out_of_bounds r x y = false →
  ∃ sym, grid_symbol (r_map r) z y x = Ok sym.
Proof.
  intros Hrect Hz [Hx Hy]%is_out_of_bounds_false. unfold grid_symbol.
  destruct (list_getitem_in_range (m_layers (r_map r)) z Hz) as (layer & -> & Hl).
  simpl. unfold rectangular in Hrect. rewrite Forall_forall in Hrect.
  destruct (Hrect _ Hl) as [Hrows Hcols].
  destruct (list_getitem_in_range layer y) as (row & -> & Hr); [lia|].
  simpl. rewrite Forall_forall in Hcols. specialize (Hcols _ Hr).
  apply str_getitem_in_range. lia.
Qed.

Lemma init_pond : init pond 0 0 9 true = Ok pond_renderer.
Proof. reflexivity. Qed.

Lemma init_lake : init lake 0 0 9 true = Ok lake_renderer.
Proof. reflexivity. Qed.

Lemma rectangular_lake : rectangular lake_renderer.
Proof. repeat constructor. Qed.

(** C5. [get_tile_at] answers the border category with the
    out-of-bounds flag set whenever [x < 0 or y < 0 or x >= cols or
    y >= rows], however far outside; otherwise it answers what
    [layers[z][y][x]] evaluates to, flag cleared: for a z-level, row and
    column counted from 0, the very character stored there. *)
Theorem get_tile_at_bounds (r : MapRenderer) (x y z : Z) :
  (x < 0 ∨ y < 0 ∨ cols r ≤ x ∨ rows r ≤ y →
   get_tile_at r x y z = Ok (mkRenderTile x y z (m_border (r_map r)) true)) ∧
  (¬ (x < 0 ∨ y < 0 ∨ cols r ≤ x ∨ rows r ≤ y) →
   get_tile_at r x y z
   = (λ sym, mkRenderTile x y z sym false) <$> grid_symbol (r_map r) z y x) ∧
  (∀ layer row c,
     ¬ (x < 0 ∨ y < 0 ∨ cols r ≤ x ∨ rows r ≤ y) → 0 ≤ z →
     m_layers (r_map r) !! Z.to_nat z = Some layer →
     layer !! Z.to_nat y = Some row →
     String.get (Z.to_nat x) row = Some c →
     get_tile_at r x y z = Ok (mkRenderTile x y z (String c EmptyString) false)).
Proof.
  unfold get_tile_at. split; [|split].
  - intros H. by rewrite (proj2 (is_out_of_bounds_true r x y) H).
  - intros H. rewrite <-is_out_of_bounds_true in H.
    apply not_true_is_false in H. rewrite H.
    by destruct (grid_symbol (r_map r) z y x).
  - intros layer row c H Hz Hlayer Hrow Hc.
    rewrite <-is_out_of_bounds_true in H. apply not_true_is_false in H.
    rewrite H. apply is_out_of_bounds_false in H as [Hx Hy].
    unfold grid_symbol.
    rewrite (proj2 (list_getitem_nonneg _ z layer Hz) Hlayer). simpl.
    rewrite (proj2 (list_getitem_nonneg _ y row (proj1 Hy)) Hrow). simpl.
    by rewrite (str_getitem_nonneg row x c (proj1 Hx) Hc).
Qed.

Lemma get_tile_at_bounds_witness :
  get_tile_at lake_renderer 700 (-3) 0 = Ok (mkRenderTile 700 (-3) 0 "g" true) ∧
  get_tile_at lake_renderer 1 2 0 = Ok (mkRenderTile 1 2 0 "w" false).
Proof.
  split.
  - apply (proj1 (get_tile_at_bounds lake_renderer 700 (-3) 0)). simpl. lia.
  - eapply (proj2 (proj2 (get_tile_at_bounds lake_renderer 1 2 0))
              ["ggg"; "gwg"; "www"] "www" _);
      [simpl; lia | lia | reflexivity | reflexivity | reflexivity].
Defined.

(** C3, as the specification states it, fails: an in-bounds cell asked
    for at a z-level the map does not have raises [IndexError]. *)
Lemma get_tile_at_raises :
  init pond 0 0 9 true = Ok pond_renderer ∧
  get_tile_at pond_renderer 0 0 1 = Raise IndexError ∧
  ¬ (∃ t, get_tile_at pond_renderer 0 0 1 = Ok t).
Proof. split; [done|]. split; [done|]. by intros [t Ht]. Qed.

Lemma get_tile_at_returns (r : MapRenderer) (x y z : Z) :
  rectangular r →
  is_out_of_bounds r x y = true ∨ - depth r ≤ z < depth r →
  ∃ t, get_tile_at r x y z = Ok t.
Proof.
  intros Hrect H. unfold get_tile_at.
  destruct (is_out_of_bounds r x y) eqn:Hoob; [by eexists|].
  destruct H as [?|Hz]; [done|].
  destruct (grid_symbol_in_range r x y z Hrect Hz Hoob) as [sym ->].
  by eexists.
Qed.

(** C3, amended. On a rectangular map [get_tile_at] returns for every
    [x], [y] outside the grid whatever [z] is, and for every cell of the
    grid when [z] indexes a z-level ([-depth <= z < depth], negative
    values counting from the last level). For a cell of the grid and any
    other [z] it raises [IndexError]. *)
Theorem get_tile_at_total (r : MapRenderer) (x y z : Z) :
  rectangular r →
  (is_out_of_bounds r x y = true ∨ - depth r ≤ z < depth r →
   ∃ t, get_tile_at r x y z = Ok t) ∧
  (is_out_of_bounds r x y = false → ¬ (- depth r ≤ z < depth r) →
   get_tile_at r x y z = Raise IndexError).
Proof.
  intros Hrect. split; [by apply get_tile_at_returns|].
  intros Hoob Hz. unfold get_tile_at, grid_symbol. rewrite Hoob.
  by rewrite list_getitem_out_of_range.
Qed.

Lemma get_tile_at_total_witness :
  (∃ t, get_tile_at lake_renderer (-5) 9 77 = Ok t) ∧
  (∃ t, get_tile_at lake_renderer 2 2 (-1) = Ok t) ∧
  get_tile_at lake_renderer 2 2 1 = Raise IndexError.
Proof.
  pose proof (get_tile_at_total lake_renderer (-5) 9 77 rectangular_lake) as [H1 _].
  pose proof (get_tile_at_total lake_renderer 2 2 (-1) rectangular_lake) as [H2 _].
  pose proof (get_tile_at_total lake_renderer 2 2 1 rectangular_lake) as [_ H3].
  split; [apply H1; by left|].
  split; [apply H2; right; unfold depth; simpl; lia|].
  apply H3; [reflexivity|]. unfold depth; simpl; lia.
Defined.

(** ** The neighbor resolver *)

Lemma get_neighbors_iff (r : MapRenderer) (x y z : Z) (ns : list RenderTile) :
  get_neighbors r x y z = Ok ns ↔
  ∃ n s e w nw sw se ne,
    ns = [n; s; e; w; nw; sw; se; ne] ∧
    get_tile_at r x (y - 1) z = Ok n ∧
    get_tile_at r x (y + 1) z = Ok s ∧
    get_tile_at r (x + 1) y z = Ok e ∧
    get_tile_at r (x - 1) y z = Ok w ∧
    get_tile_at r (x - 1) (y - 1) z = Ok nw ∧
    get_tile_at r (x - 1) (y + 1) z = Ok sw ∧
    get_tile_at r (x + 1) (y + 1) z = Ok se ∧
    get_tile_at r (x + 1) (y - 1) z = Ok ne.
Proof.
  unfold get_neighbors. split.
  - intros H.
    apply bind_Ok in H as (n & Hn & H). apply bind_Ok in H as (s & Hs & H).
    apply bind_Ok in H as (e & He & H). apply bind_Ok in H as (w & Hw & H).
    apply bind_Ok in H as (nw & Hnw & H). apply bind_Ok in H as (sw & Hsw & H).
    apply bind_Ok in H as (se & Hse & H). apply bind_Ok in H as (ne & Hne & H).
    injection H as <-. by exists n, s, e, w, nw, sw, se, ne.
  - intros (n & s & e & w & nw & sw & se & ne & -> & Hn & Hs & He & Hw
            & Hnw & Hsw & Hse & Hne).
    by rewrite Hn, Hs, He, Hw, Hnw, Hsw, Hse, Hne.
Qed.

Lemma get_neighbors_returns (r : MapRenderer) (x y z : Z) :
  rectangular r → - depth r ≤ z < depth r →
  ∃ n s e w nw sw se ne,
    get_neighbors r x y z = Ok [n; s; e; w; nw; sw; se; ne].
Proof.
  intros Hrect Hz. unfold get_neighbors.
  assert (∀ x' y', ∃ t, get_tile_at r x' y' z = Ok t) as Htot.
  { intros x' y'. apply (get_tile_at_returns r x' y' z Hrect). by right. }
  destruct (Htot x (y - 1)) as [n ->], (Htot x (y + 1)) as [s ->],
    (Htot (x + 1) y) as [e ->], (Htot (x - 1) y) as [w ->],
    (Htot (x - 1) (y - 1)) as [nw ->], (Htot (x - 1) (y + 1)) as [sw ->],
    (Htot (x + 1) (y + 1)) as [se ->], (Htot (x + 1) (y - 1)) as [ne ->].
  run_bind. by exists n, s, e, w, nw, sw, se, ne.
Qed.

(** C8. [get_neighbors] returns exactly when the grid accessor returns
    for the eight neighbors, and then its result is the list of their
    eight classifications in the order N, S, E, W, NW, SW, SE, NE, with
    N = (x, y-1), S = (x, y+1), E = (x+1, y), W = (x-1, y),
    NW = (x-1, y-1), SW = (x-1, y+1), SE = (x+1, y+1), NE = (x+1, y-1),
    all at the same [z]. On a rectangular map it returns for every cell
    and every z-level of the map. *)
Theorem get_neighbors_order (r : MapRenderer) (x y z : Z) :
  (∀ ns,
     get_neighbors r x y z = Ok ns ↔
     ∃ n s e w nw sw se ne,
       ns = [n; s; e; w; nw; sw; se; ne] ∧
       get_tile_at r x (y - 1) z = Ok n ∧
       get_tile_at r x (y + 1) z = Ok s ∧
       get_tile_at r (x + 1) y z = Ok e ∧
       get_tile_at r (x - 1) y z = Ok w ∧
       get_tile_at r (x - 1) (y - 1) z = Ok nw ∧
       get_tile_at r (x - 1) (y + 1) z = Ok sw ∧
       get_tile_at r (x + 1) (y + 1) z = Ok se ∧
       get_tile_at r (x + 1) (y - 1) z = Ok ne) ∧
  (rectangular r → - depth r ≤ z < depth r →
   ∃ ns, get_neighbors r x y z = Ok ns ∧ length ns = 8%nat).
Proof.
  split; [apply get_neighbors_iff|].
  intros Hrect Hz.
  destruct (get_neighbors_returns r x y z Hrect Hz)
    as (n & s & e & w & nw & sw & se & ne & ->).
  by eexists.
Qed.

Lemma get_neighbors_order_witness :
  get_neighbors lake_renderer 1 1 0
  = Ok [mkRenderTile 1 0 0 "g" false; mkRenderTile 1 2 0 "w" false;
        mkRenderTile 2 1 0 "g" false; mkRenderTile 0 1 0 "g" false;
        mkRenderTile 0 0 0 "g" false; mkRenderTile 0 2 0 "w" false;
        mkRenderTile 2 2 0 "w" false; mkRenderTile 2 0 0 "g" false] ∧
  (∃ ns, get_neighbors lake_renderer 0 0 0 = Ok ns ∧ length ns = 8%nat).
Proof.
  split.
  - apply (proj1 (get_neighbors_order lake_renderer 1 1 0)).
    do 8 eexists. repeat split; reflexivity.
  - apply (proj2 (get_neighbors_order lake_renderer 0 0 0) rectangular_lake).
    unfold depth; simpl; lia.
Defined.

(** ** Loops *)

Lemma for_each_skip {A S : Type} (body : A → S → result S) (l : list A) (s : S) :
  (∀ a, a ∈ l → body a s = Ok s) → for_each body l s = Ok s.
Proof.
  induction l as [|a l IH]; intros H; simpl; [done|].
  rewrite H by left. simpl. apply IH. intros a' Ha'. apply H. by right.
Qed.

Lemma length_range (a b : Z) : length (range a b) = Z.to_nat (b - a).
Proof. unfold range. by rewrite length_fmap, length_seq. Qed.

Lemma elem_of_range (a b i : Z) : i ∈ range a b ↔ a ≤ i < b.
Proof.
  unfold range. rewrite list_elem_of_fmap. split.
  - intros (k & -> & Hk). apply elem_of_seq in Hk. lia.
  - intros H. exists (Z.to_nat (i - a)). split; [lia|].
    apply elem_of_seq. lia.
Qed.

Lemma product_cons {A B : Type} (x : A) (xs : list A) (ys : list B) :
  product (x :: xs) ys = ((λ y, (x, y)) <$> ys) ++ product xs ys.
Proof. reflexivity. Qed.

Lemma length_product {A B : Type} (xs : list A) (ys : list B) :
  length (product xs ys) = (length xs * length ys)%nat.
Proof.
  induction xs as [|x xs IH]; [done|].
  rewrite product_cons, length_app, length_fmap, IH. simpl. lia.
Qed.

Lemma elem_of_product {A B : Type} (xs : list A) (ys : list B) (x : A) (y : B) :
  (x, y) ∈ product xs ys ↔ x ∈ xs ∧ y ∈ ys.
Proof.
  unfold product. rewrite list_elem_of_bind. split.
  - intros (x' & Hy & Hx). apply list_elem_of_fmap in Hy as (y' & [= -> ->] & Hy).
    done.
  - intros [Hx Hy]. exists x. split; [|done].
    apply list_elem_of_fmap. by exists y.
Qed.

Lemma tile_mapper_unfold (r : MapRenderer) (full_map : bool) :
  tile_mapper r full_map
  = for_each
      (λ z_index layers,
         for_each (cell_body r (x_origin r full_map) (y_origin r full_map) z_index)
           (cells r full_map) layers)
      (range 0 (depth r)) [].
Proof. by destruct full_map. Qed.

Lemma elem_of_cells (r : MapRenderer) (full_map : bool) (x y : Z) :
  (x, y) ∈ cells r full_map ↔
  if full_map then 0 ≤ x < cols r ∧ 0 ≤ y < rows r
  else r_x r - radius r ≤ x ≤ r_x r + radius r ∧
       r_y r - radius r ≤ y ≤ r_y r + radius r.
Proof.
  destruct full_map; unfold cells; simpl;
    rewrite elem_of_product, !elem_of_range; lia.
Qed.

(** ** Construction *)

Lemma lor_1_odd (v : Z) : Z.lor v 1 = 2 * (Z.lor v 1 `div` 2) + 1.
Proof.
  rewrite <-Z.div2_div.
  rewrite (Z.div2_odd (Z.lor v 1)) at 1.
  rewrite <-Z.bit0_odd, Z.lor_spec, orb_true_r. done.
Qed.

(** C4, as the specification states it, fails: a visibility of 0 is
    accepted, and tiles are produced for it. *)
Lemma init_accepts_visibility_zero :
  init pond 0 0 0 true = Ok (mkMapRenderer pond 1 1 1 0 0 0 true) ∧
  tile_mapper (mkMapRenderer pond 1 1 1 0 0 0 true) false
  = Ok [(0, [mkRenderTile 0 0 0 "w" false])].
Proof. split; reflexivity. Qed.

(** C4, amended. Construction rejects no visibility and no viewer
    position: for a map with at least one row it returns whatever [x],
    [y] and the visibility are, the visibility or-ed with 1 and the
    radius its floored half; when it raises it is [IndexError], for a
    map without a z-level or without a row. A visibility of 0 or more
    gives a window of [visibility × visibility] cells, at least one,
    wherever the viewer stands; a negative one gives no cell at all, and
    the windowed [tile_mapper] returns the empty collection. *)
Theorem init_accepts_any_window (m : Map) (x y vis : Z) (rwe : bool) :
  (∀ row0 rest_rows rest_layers,
     m_layers m = (row0 :: rest_rows) :: rest_layers →
     ∃ r, init m x y vis rwe = Ok r ∧
          r_map r = m ∧ r_x r = x ∧ r_y r = y ∧
          visibility r = Z.lor vis 1 ∧ radius r = visibility r `div` 2 ∧
          (0 ≤ vis →
           1 ≤ visibility r ∧ visibility r = 2 * radius r + 1 ∧
           length (cells r false) = Z.to_nat (visibility r * visibility r)) ∧
          (vis < 0 → cells r false = [] ∧ tile_mapper r false = Ok [])) ∧
  (∀ e, init m x y vis rwe = Raise e →
        e = IndexError ∧ (m_layers m = [] ∨ ∃ rest, m_layers m = [] :: rest)).
Proof.
  split.
  - intros row0 rest_rows rest_layers Hm. unfold init. rewrite Hm. simpl.
    eexists. split; [done|]. simpl. repeat split; try done.
    + pose proof (lor_1_odd vis).
      assert (0 ≤ Z.lor vis 1) by (apply Z.lor_nonneg; lia).
      lia.
    + apply lor_1_odd.
    + unfold cells. simpl. rewrite length_product, !length_range.
      pose proof (lor_1_odd vis).
      assert (0 ≤ Z.lor vis 1) by (apply Z.lor_nonneg; lia).
      nia.
    + assert (Z.lor vis 1 < 0) by (apply Z.lor_neg; lia).
      pose proof (lor_1_odd vis).
      unfold cells, range. simpl.
      replace (Z.to_nat _) with 0%nat by lia. done.
    + assert (Z.lor vis 1 < 0) by (apply Z.lor_neg; lia).
      pose proof (lor_1_odd vis).
      rewrite tile_mapper_unfold. apply for_each_skip. intros z _.
      unfold cells, range. simpl.
      replace (Z.to_nat _) with 0%nat by lia. done.
  - intros e. unfold init.
    destruct (m_layers m) as [|[|row0 rest_rows] rest_layers]; simpl.
    + intros [= <-]. split; [done|by left].
    + intros [= <-]. split; [done|right; by eexists].
    + done.
Qed.

Lemma init_accepts_any_window_witness :
  (∃ r, init pond 3 (-8) 0 true = Ok r ∧ visibility r = 1 ∧
        length (cells r false) = 1%nat) ∧
  (∃ r, init pond 3 (-8) (-4) true = Ok r ∧ visibility r = -3 ∧
        tile_mapper r false = Ok []).
Proof.
  split.
  - destruct (proj1 (init_accepts_any_window pond 3 (-8) 0 true) "w" [] [] eq_refl)
      as (r & Hr & _ & _ & _ & Hv & _ & Hpos & _).
    exists r. split; [done|]. split; [done|].
    destruct Hpos as (_ & _ & Hlen); [lia|]. by rewrite Hlen, Hv.
  - destruct (proj1 (init_accepts_any_window pond 3 (-8) (-4) true) "w" [] [] eq_refl)
      as (r & Hr & _ & _ & _ & Hv & _ & _ & Hneg).
    exists r. split; [done|]. split; [done|]. apply Hneg. lia.
Defined.

(** ** The edge and cap classifier *)

Lemma opens_draws_against (m : Map) (nb : RenderTile) :
  opens m nb = true ↔ draws_against m nb.
Proof.
  unfold opens, draws_against. rewrite andb_true_iff, negb_true_iff.
  destruct (tile_name_of m (rt_tile nb)) as [name|e].
  - rewrite bool_decide_eq_true. split.
    + intros [Hb Hn]. split; [done|]. by exists name.
    + intros [Hb (name' & [= <-] & Hn)]. done.
  - split; [by intros [_ ?]|by intros [_ (? & ? & _)]].
Qed.

Lemma wtr_cancels : "wtr" ∈ WATER_EDGE_CANCELERS.
Proof. by left. Qed.

Lemma tile_name_of_total (m : Map) (sym : string) :
  is_Some (m_tiles m !! m_default m) → ∃ name, tile_name_of m sym = Ok name.
Proof.
  intros [d Hd]. unfold tile_name_of, dict_getitem. rewrite Hd.
  destruct (m_tiles m !! sym) as [t|]; [|by eexists].
  case_bool_decide; by eexists.
Qed.

Lemma resolves_default (m : Map) (nb : RenderTile) :
  is_Some (m_tiles m !! m_default m) → resolves m nb.
Proof. intros Hd. right. by apply tile_name_of_total. Qed.

Lemma edge_body_iff (m : Map) (i : nat) (letter : string) (nb : RenderTile)
    (acc acc' : list string) :
  water_lookup i = Ok letter →
  edge_body m (i, nb) acc = Ok acc' ↔
  resolves m nb ∧ acc' = acc ++ code_if (opens m nb) letter.
Proof.
  intros Hletter. unfold edge_body, opens, resolves.
  destruct (rt_out_of_bounds nb); run_bind.
  - rewrite bool_decide_eq_true_2 by apply wtr_cancels.
    cbn [negb andb code_if]. rewrite app_nil_r. split.
    + intros [= <-]. split; [by left|done].
    + by intros [_ ->].
  - destruct (tile_name_of m (rt_tile nb)) as [name|e]; run_bind.
    + cbn [negb andb].
      destruct (decide (name ∈ WATER_EDGE_CANCELERS)) as [Hin|Hnin].
      * rewrite bool_decide_eq_true_2, bool_decide_eq_false_2 by tauto.
        cbn [code_if]. rewrite app_nil_r. split.
        -- intros [= <-]. split; [right; by eexists|done].
        -- by intros [_ ->].
      * rewrite bool_decide_eq_false_2, bool_decide_eq_true_2 by tauto.
        rewrite Hletter. run_bind. cbn [code_if]. split.
        -- intros [= <-]. split; [right; by eexists|done].
        -- by intros [_ ->].
    + split; [done|]. by intros [[?|(name & ?)] _].
Qed.

Lemma enumerate_4 {A : Type} (a b c d : A) :
  enumerate [a; b; c; d] = [(0, a); (1, b); (2, c); (3, d)]%nat.
Proof. reflexivity. Qed.

Lemma edge_loop_iff (m : Map) (n s e w : RenderTile) (codes : list string) :
  for_each (edge_body m) (enumerate [n; s; e; w]) [] = Ok codes ↔
  (resolves m n ∧ resolves m s ∧ resolves m e ∧ resolves m w) ∧
  codes = edge_codes m n s e w.
Proof.
  rewrite enumerate_4. cbn [for_each]. unfold edge_codes. split.
  - intros H.
    apply bind_Ok in H as (c1 & H1 & H). apply bind_Ok in H as (c2 & H2 & H).
    apply bind_Ok in H as (c3 & H3 & H). apply bind_Ok in H as (c4 & H4 & H).
    injection H as <-.
    apply (edge_body_iff m 0 "n") in H1 as [Hn ->]; [|done].
    apply (edge_body_iff m 1 "s") in H2 as [Hs ->]; [|done].
    apply (edge_body_iff m 2 "e") in H3 as [He ->]; [|done].
    apply (edge_body_iff m 3 "w") in H4 as [Hw ->]; [|done].
    split; [done|]. by rewrite <-!app_assoc.
  - intros [(Hn & Hs & He & Hw) ->].
    rewrite (proj2 (edge_body_iff m 0 "n" n [] _ eq_refl) (conj Hn eq_refl)).
    run_bind.
    rewrite (proj2 (edge_body_iff m 1 "s" s _ _ eq_refl) (conj Hs eq_refl)).
    run_bind.
    rewrite (proj2 (edge_body_iff m 2 "e" e _ _ eq_refl) (conj He eq_refl)).
    run_bind.
    rewrite (proj2 (edge_body_iff m 3 "w" w _ _ eq_refl) (conj Hw eq_refl)).
    run_bind. by rewrite <-!app_assoc.
Qed.

Lemma cap_body_iff (m : Map) (ordinal : list RenderTile) (x_out y_out z_index : Z)
    (i : nat) (letter : string) (nb : RenderTile) (layers layers' : Layers) :
  ordinal !! i = Some nb →
  cap_body m ordinal x_out y_out z_index (i, letter) layers = Ok layers' ↔
  resolves m nb ∧
  layers' = foldl add_cap layers
              ((λ l, mkRenderTile x_out y_out z_index ("wtrc_" +:+ l) false) <$>
               code_if (opens m nb) letter).
Proof.
  intros Hnb. unfold cap_body, opens, resolves.
  rewrite (proj2 (list_getitem_nonneg ordinal (Z.of_nat i) nb (Nat2Z.is_nonneg i)))
    by (by rewrite Nat2Z.id).
  run_bind. destruct (rt_out_of_bounds nb).
  - cbn [negb andb code_if fmap list_fmap foldl]. split.
    + intros [= <-]. split; [by left|done].
    + by intros [_ ->].
  - destruct (tile_name_of m (rt_tile nb)) as [name|e]; run_bind.
    + cbn [negb andb].
      destruct (decide (name ∈ WATER_EDGE_CANCELERS)) as [Hin|Hnin].
      * rewrite bool_decide_eq_true_2, bool_decide_eq_false_2 by tauto.
        cbn [code_if fmap list_fmap foldl]. split.
        -- intros [= <-]. split; [right; by eexists|done].
        -- by intros [_ ->].
      * rewrite bool_decide_eq_false_2, bool_decide_eq_true_2 by tauto.
        cbn [code_if fmap list_fmap foldl]. split.
        -- intros [= <-]. split; [right; by eexists|done].
        -- by intros [_ ->].
    + split; [done|]. by intros [[?|(name & ?)] _].
Qed.

Lemma cap_loop_iff (m : Map) (x_out y_out z_index : Z) (nw sw se ne : RenderTile)
    (layers layers' : Layers) :
  for_each (cap_body m [nw; sw; se; ne] x_out y_out z_index)
    (enumerate (chars "acdb")) layers = Ok layers' ↔
  (resolves m nw ∧ resolves m sw ∧ resolves m se ∧ resolves m ne) ∧
  layers' = foldl add_cap layers (cap_tiles m x_out y_out z_index nw sw se ne).
Proof.
  change (chars "acdb") with ["a"; "c"; "d"; "b"].
  rewrite enumerate_4. cbn [for_each]. unfold cap_tiles.
  rewrite !fmap_app, !foldl_app. split.
  - intros H.
    apply bind_Ok in H as (l1 & H1 & H). apply bind_Ok in H as (l2 & H2 & H).
    apply bind_Ok in H as (l3 & H3 & H). apply bind_Ok in H as (l4 & H4 & H).
    injection H as <-.
    apply (cap_body_iff m _ _ _ _ 0 "a" nw) in H1 as [Hnw ->]; [|done].
    apply (cap_body_iff m _ _ _ _ 1 "c" sw) in H2 as [Hsw ->]; [|done].
    apply (cap_body_iff m _ _ _ _ 2 "d" se) in H3 as [Hse ->]; [|done].
    apply (cap_body_iff m _ _ _ _ 3 "b" ne) in H4 as [Hne ->]; [|done].
    done.
  - intros [(Hnw & Hsw & Hse & Hne) ->].
    rewrite (proj2 (cap_body_iff m [nw; sw; se; ne] x_out y_out z_index
                      0 "a" nw layers _ eq_refl) (conj Hnw eq_refl)).
    run_bind.
    rewrite (proj2 (cap_body_iff m [nw; sw; se; ne] x_out y_out z_index
                      1 "c" sw _ _ eq_refl) (conj Hsw eq_refl)).
    run_bind.
    rewrite (proj2 (cap_body_iff m [nw; sw; se; ne] x_out y_out z_index
                      2 "d" se _ _ eq_refl) (conj Hse eq_refl)).
    run_bind.
    rewrite (proj2 (cap_body_iff m [nw; sw; se; ne] x_out y_out z_index
                      3 "b" ne _ _ eq_refl) (conj Hne eq_refl)).
    done.
Qed.

Lemma water_case_iff (r : MapRenderer) (x y z x_out y_out : Z) (sym : string)
    (layers : Layers) (tile : string) (layers' : Layers) :
  water_case r x y z x_out y_out sym layers = Ok (tile, layers') ↔
  ∃ n s e w nw sw se ne,
    get_neighbors r x y z = Ok [n; s; e; w; nw; sw; se; ne] ∧
    Forall (resolves (r_map r)) [n; s; e; w; nw; sw; se; ne] ∧
    tile = water_tile sym (edge_codes (r_map r) n s e w) ∧
    layers' = foldl add_cap layers (cap_tiles (r_map r) x_out y_out z nw sw se ne).
Proof.
  unfold water_case. split.
  - intros H. apply bind_Ok in H as (ns & Hns & H).
    pose proof Hns as Hshape.
    apply get_neighbors_iff in Hshape
      as (n & s & e & w & nw & sw & se & ne & -> & _).
    change (take 4 [n; s; e; w; nw; sw; se; ne]) with [n; s; e; w] in H.
    change (drop 4 [n; s; e; w; nw; sw; se; ne]) with [nw; sw; se; ne] in H.
    apply bind_Ok in H as (codes & Hcodes & H).
    apply bind_Ok in H as (layers1 & Hcaps & H).
    injection H as <- <-.
    apply edge_loop_iff in Hcodes as [(Hn & Hs & He & Hw) ->].
    apply cap_loop_iff in Hcaps as [(Hnw & Hsw & Hse & Hne) ->].
    exists n, s, e, w, nw, sw, se, ne. split; [done|].
    split; [|done].
    repeat (apply Forall_cons; split; [done|]). apply Forall_nil_2.
  - intros (n & s & e & w & nw & sw & se & ne & -> & Hres & -> & ->).
    run_bind.
    change (take 4 [n; s; e; w; nw; sw; se; ne]) with [n; s; e; w].
    change (drop 4 [n; s; e; w; nw; sw; se; ne]) with [nw; sw; se; ne].
    apply Forall_cons in Hres as [Hn Hres]. apply Forall_cons in Hres as [Hs Hres].
    apply Forall_cons in Hres as [He Hres]. apply Forall_cons in Hres as [Hw Hres].
    apply Forall_cons in Hres as [Hnw Hres]. apply Forall_cons in Hres as [Hsw Hres].
    apply Forall_cons in Hres as [Hse Hres]. apply Forall_cons in Hres as [Hne _].
    rewrite (proj2 (edge_loop_iff (r_map r) n s e w _) (conj (conj Hn (conj Hs (conj He Hw))) eq_refl)).
    run_bind.
    rewrite (proj2 (cap_loop_iff (r_map r) x_out y_out z nw sw se ne layers _)
               (conj (conj Hnw (conj Hsw (conj Hse Hne))) eq_refl)).
    done.
Qed.

(** ** The loop body, branch by branch *)

Lemma cell_body_border (r : MapRenderer) (ox oy x y : Z) (layers : Layers) :
  is_out_of_bounds r x y = true →
  cell_body r ox oy 0 (x, y) layers
  = Ok (layers_append 0
          (mkRenderTile ((x - ox) * TILE_SIZE) ((y - oy) * TILE_SIZE) 0
             (m_border (r_map r)) true) layers).
Proof. intros Hoob. unfold cell_body. by rewrite Hoob. Qed.

Lemma cell_body_outside (r : MapRenderer) (ox oy z x y : Z) (layers : Layers) :
  z ≠ 0 → is_out_of_bounds r x y = true →
  cell_body r ox oy z (x, y) layers = Ok layers.
Proof.
  intros Hz Hoob. unfold cell_body.
  by rewrite Hoob, bool_decide_eq_false_2.
Qed.

Lemma cell_body_raise (r : MapRenderer) (ox oy z x y : Z) (layers : Layers) (e : exn) :
  is_out_of_bounds r x y = false →
  grid_symbol (r_map r) z y x = Raise e →
  cell_body r ox oy z (x, y) layers = Raise e.
Proof.
  intros Hoob Hsym. unfold cell_body.
  by rewrite Hoob, andb_false_r, Hsym.
Qed.

Lemma cell_body_blank (r : MapRenderer) (ox oy z x y : Z) (layers : Layers) :
  is_out_of_bounds r x y = false →
  grid_symbol (r_map r) z y x = Ok " " →
  cell_body r ox oy z (x, y) layers = Ok layers.
Proof.
  intros Hoob Hsym. unfold cell_body.
  by rewrite Hoob, andb_false_r, Hsym.
Qed.

Lemma cell_body_edges_off (r : MapRenderer) (ox oy z x y : Z) (sym : string)
    (layers : Layers) :
  render_water_edges r = false →
  is_out_of_bounds r x y = false →
  grid_symbol (r_map r) z y x = Ok sym →
  cell_body r ox oy z (x, y) layers = Ok layers.
Proof.
  intros Hflag Hoob Hsym. unfold cell_body.
  rewrite Hoob, andb_false_r, Hsym, Hflag. run_bind.
  by case_bool_decide.
Qed.

Lemma cell_body_plain (r : MapRenderer) (ox oy z x y : Z) (sym : string)
    (layers : Layers) :
  render_water_edges r = true →
  is_out_of_bounds r x y = false →
  grid_symbol (r_map r) z y x = Ok sym →
  sym ≠ " " →
  m_tiles (r_map r) !! sym ≠ Some "wtr" →
  cell_body r ox oy z (x, y) layers
  = Ok (layers_append z
          (mkRenderTile ((x - ox) * TILE_SIZE) ((y - oy) * TILE_SIZE) z sym false)
          layers).
Proof.
  intros Hflag Hoob Hsym Hblank Hwater. unfold cell_body.
  rewrite Hoob, andb_false_r, Hsym, Hflag. run_bind.
  by rewrite !bool_decide_eq_false_2.
Qed.

(** ** Water cells *)

Lemma list_getitem_Ok_range {A : Type} (l : list A) (i : Z) (a : A) :
  list_getitem l i = Ok a → - Z.of_nat (length l) ≤ i < Z.of_nat (length l).
Proof.
  intros H.
  destruct (decide (- Z.of_nat (length l) ≤ i < Z.of_nat (length l))) as [|Hout];
    [done|].
  by rewrite list_getitem_out_of_range in H.
Qed.

Lemma grid_symbol_Ok_level (r : MapRenderer) (x y z : Z) (sym : string) :
  grid_symbol (r_map r) z y x = Ok sym → - depth r ≤ z < depth r.
Proof.
  unfold grid_symbol. intros H. apply bind_Ok in H as (layer & Hlayer & _).
  by apply list_getitem_Ok_range in Hlayer.
Qed.

Lemma get_tile_name_water (r : MapRenderer) (sym : string) :
  m_tiles (r_map r) !! sym = Some "wtr" → get_tile_name r sym = "wtr".
Proof. unfold get_tile_name. by intros ->. Qed.

Lemma elem_of_code_if (b : bool) (letter x : string) :
  x ∈ code_if b letter ↔ b = true ∧ x = letter.
Proof.
  destruct b; simpl.
  - rewrite list_elem_of_singleton. split; [by intros ->|by intros [_ ->]].
  - rewrite elem_of_nil. split; [done|by intros [? _]].
Qed.

Lemma edge_codes_sublist (m : Map) (n s e w : RenderTile) :
  edge_codes m n s e w `sublist_of` ["n"; "s"; "e"; "w"].
Proof.
  unfold edge_codes.
  destruct (opens m n), (opens m s), (opens m e), (opens m w); simpl;
    repeat first [apply sublist_nil | apply sublist_skip | apply sublist_cons].
Qed.

Lemma edge_codes_NoDup (m : Map) (n s e w : RenderTile) :
  NoDup (edge_codes m n s e w).
Proof.
  eapply sublist_NoDup; [|apply edge_codes_sublist].
  repeat (apply NoDup_cons; split; [set_solver|]). apply NoDup_nil_2.
Qed.

Lemma edge_codes_elem (m : Map) (n s e w : RenderTile) :
  ("n" ∈ edge_codes m n s e w ↔ draws_against m n) ∧
  ("s" ∈ edge_codes m n s e w ↔ draws_against m s) ∧
  ("e" ∈ edge_codes m n s e w ↔ draws_against m e) ∧
  ("w" ∈ edge_codes m n s e w ↔ draws_against m w).
Proof.
  rewrite <-!opens_draws_against. unfold edge_codes.
  rewrite !elem_of_app, !elem_of_code_if. naive_solver.
Qed.

Lemma water_tile_edge_codes (m : Map) (sym : string) (n s e w : RenderTile) :
  water_tile sym (edge_codes m n s e w)
  = if bool_decide (edge_codes m n s e w = []) then sym
    else "wtr_" +:+ String.concat "" (edge_codes m n s e w).
Proof.
  unfold water_tile, edge_codes.
  by destruct (opens m n), (opens m s), (opens m e), (opens m w).
Qed.

Lemma cap_sprite_inj (x_out y_out z : Z) :
  Inj (=) (=) (λ letter, mkRenderTile x_out y_out z ("wtrc_" +:+ letter) false).
Proof. intros l1 l2 H. by injection H. Qed.

Lemma cap_tiles_NoDup (m : Map) (x_out y_out z : Z) (nw sw se ne : RenderTile) :
  NoDup (cap_tiles m x_out y_out z nw sw se ne).
Proof.
  unfold cap_tiles. pose proof (cap_sprite_inj x_out y_out z) as Hinj.
  apply (NoDup_fmap_2 _), (sublist_NoDup _ ["a"; "c"; "d"; "b"]).
  - repeat (apply NoDup_cons; split; [set_solver|]). apply NoDup_nil_2.
  - destruct (opens m nw), (opens m sw), (opens m se), (opens m ne); simpl;
      repeat first [apply sublist_nil | apply sublist_skip | apply sublist_cons].
Qed.

Lemma elem_of_cap_tiles (m : Map) (x_out y_out z : Z) (nw sw se ne t : RenderTile) :
  t ∈ cap_tiles m x_out y_out z nw sw se ne ↔
  ∃ nb letter,
    (nb, letter) ∈ [(nw, "a"); (sw, "c"); (se, "d"); (ne, "b")] ∧
    draws_against m nb ∧
    t = mkRenderTile x_out y_out z ("wtrc_" +:+ letter) false.
Proof.
  unfold cap_tiles. rewrite list_elem_of_fmap. split.
  - intros (letter & -> & Hin).
    rewrite !elem_of_app, !elem_of_code_if in Hin.
    destruct Hin as [[Ho ->]|[[Ho ->]|[[Ho ->]|[Ho ->]]]];
      apply opens_draws_against in Ho.
    + exists nw, "a". split; [set_solver|done].
    + exists sw, "c". split; [set_solver|done].
    + exists se, "d". split; [set_solver|done].
    + exists ne, "b". split; [set_solver|done].
  - intros (nb & letter & Hin & Hd & ->). exists letter. split; [done|].
    apply opens_draws_against in Hd.
    rewrite !elem_of_app, !elem_of_code_if.
    rewrite !elem_of_cons, elem_of_nil in Hin.
    destruct Hin as [[= -> ->]|[[= -> ->]|[[= -> ->]|[[= -> ->]|[]]]]]; tauto.
Qed.

Lemma cap_tiles_none (m : Map) (x_out y_out z : Z) (nw sw se ne : RenderTile) :
  (∀ nb, nb ∈ [nw; sw; se; ne] → rt_out_of_bounds nb = false →
         ∃ name, tile_name_of m (rt_tile nb) = Ok name ∧
                 name ∈ WATER_EDGE_CANCELERS) →
  cap_tiles m x_out y_out z nw sw se ne = [].
Proof.
  intros Hall.
  assert (∀ nb, nb ∈ [nw; sw; se; ne] → opens m nb = false) as Hno.
  { intros nb Hnb. apply not_true_is_false. intros Ho.
    apply opens_draws_against in Ho as [Hb (name & Hname & Hnin)].
    destruct (Hall nb Hnb Hb) as (name' & Hname' & Hin). congruence. }
  unfold cap_tiles.
  rewrite (Hno nw), (Hno sw), (Hno se), (Hno ne) by set_solver. done.
Qed.

(** *** The water branch of the loop body

    A cell of the grid that holds a water symbol, reached with edge
    rendering on: the branch [if tile_name == "wtr":]. *)
Section water_cell.

Context (r : MapRenderer) (ox oy z x y : Z) (sym : string).
Hypothesis Hflag : render_water_edges r = true.
Hypothesis Hoob : is_out_of_bounds r x y = false.
Hypothesis Hsym : grid_symbol (r_map r) z y x = Ok sym.
Hypothesis Hblank : sym ≠ " ".
Hypothesis Hwater : m_tiles (r_map r) !! sym = Some "wtr".

Lemma cell_body_water (layers layers' : Layers) :
  cell_body r ox oy z (x, y) layers = Ok layers' ↔
  ∃ n s e w nw sw se ne,
    get_neighbors r x y z = Ok [n; s; e; w; nw; sw; se; ne] ∧
    Forall (resolves (r_map r)) [n; s; e; w; nw; sw; se; ne] ∧
    layers'
    = layers_append z
        (mkRenderTile ((x - ox) * TILE_SIZE) ((y - oy) * TILE_SIZE) z
           (water_tile sym (edge_codes (r_map r) n s e w)) false)
        (foldl add_cap layers
           (cap_tiles (r_map r) ((x - ox) * TILE_SIZE) ((y - oy) * TILE_SIZE) z
              nw sw se ne)).
Proof.
  unfold cell_body.
  rewrite Hoob, andb_false_r, Hsym, Hflag. run_bind.
  rewrite bool_decide_eq_false_2, bool_decide_eq_true_2 by done.
  cbn [negb]. split.
  - intros H. apply bind_Ok in H as ([tile layers1] & Hw & H).
    injection H as <-.
    apply water_case_iff in Hw
      as (n & s & e & w & nw & sw & se & ne & Hns & Hres & -> & ->).
    by exists n, s, e, w, nw, sw, se, ne.
  - intros (n & s & e & w & nw & sw & se & ne & Hns & Hres & ->).
    rewrite (proj2 (water_case_iff r x y z _ _ sym layers _ _)
               (ex_intro _ n (ex_intro _ s (ex_intro _ e (ex_intro _ w
                 (ex_intro _ nw (ex_intro _ sw (ex_intro _ se (ex_intro _ ne
                   (conj Hns (conj Hres (conj eq_refl eq_refl)))))))))))).
    done.
Qed.

Lemma cell_body_water_returns (layers : Layers) :
  rectangular r → default_mapped r →
  ∃ layers', cell_body r ox oy z (x, y) layers = Ok layers'.
Proof.
  intros Hrect Hd.
  destruct (get_neighbors_returns r x y z Hrect (grid_symbol_Ok_level r x y z sym Hsym))
    as (n & s & e & w & nw & sw & se & ne & Hns).
  eexists. apply cell_body_water.
  exists n, s, e, w, nw, sw, se, ne. split; [done|]. split; [|done].
  repeat (apply Forall_cons; split; [by apply resolves_default|]).
  apply Forall_nil_2.
Qed.

(** C6. A water cell reached with edge rendering on: on a rectangular
    map whose default category has a sprite the loop body returns; and
    whenever it returns, the edge codes form a sublist of n, s, e, w
    without repetition, the code of a direction being present exactly
    when the neighbor on that side lies inside the grid and its sprite
    is not edge-canceling (so an out-of-bounds neighbor gives no code),
    and the tile appended to the cell's z-level is [wtr_<codes>] when
    there are codes and the cell's own symbol, whose sprite is [wtr],
    when there are none. *)
Theorem water_cell_edge_codes (layers : Layers) :
  (rectangular r → default_mapped r →
   ∃ layers', cell_body r ox oy z (x, y) layers = Ok layers') ∧
  (∀ layers',
     cell_body r ox oy z (x, y) layers = Ok layers' →
     ∃ n s e w nw sw se ne (codes : list string) (layers1 : Layers),
       get_neighbors r x y z = Ok [n; s; e; w; nw; sw; se; ne] ∧
       codes `sublist_of` ["n"; "s"; "e"; "w"] ∧
       NoDup codes ∧
       ("n" ∈ codes ↔ draws_against (r_map r) n) ∧
       ("s" ∈ codes ↔ draws_against (r_map r) s) ∧
       ("e" ∈ codes ↔ draws_against (r_map r) e) ∧
       ("w" ∈ codes ↔ draws_against (r_map r) w) ∧
       (∀ nb letter,
          (nb, letter) ∈ [(n, "n"); (s, "s"); (e, "e"); (w, "w")] →
          rt_out_of_bounds nb = true → letter ∉ codes) ∧
       layers'
       = layers_append z
           (mkRenderTile ((x - ox) * TILE_SIZE) ((y - oy) * TILE_SIZE) z
              (if bool_decide (codes = []) then sym
               else "wtr_" +:+ String.concat "" codes) false)
           layers1 ∧
       get_tile_name r sym = "wtr").
Proof.
  split.
  - apply cell_body_water_returns.
  - intros layers' H.
    apply cell_body_water in H
      as (n & s & e & w & nw & sw & se & ne & Hns & _ & ->).
    pose proof (edge_codes_elem (r_map r) n s e w) as (Hn & Hs & He & Hw).
    exists n, s, e, w, nw, sw, se, ne, (edge_codes (r_map r) n s e w).
    eexists. split; [done|].
    split; [apply edge_codes_sublist|]. split; [apply edge_codes_NoDup|].
    do 4 (split; [done|]). split.
    + intros nb letter Hin Hout Hcode.
      assert (¬ draws_against (r_map r) nb) as Hno.
      { intros [Hb _]. congruence. }
      rewrite !elem_of_cons, elem_of_nil in Hin.
      destruct Hin as [[= -> ->]|[[= -> ->]|[[= -> ->]|[[= -> ->]|[]]]]];
        tauto.
    + split; [|by apply get_tile_name_water].
      by rewrite water_tile_edge_codes.
Qed.

(** C7. A water cell reached with edge rendering on: on a rectangular
    map whose default category has a sprite the loop body returns; and
    whenever it returns, the layers it leaves are the layers it found,
    with the caps added one after the other and then the cell's own
    tile, where the caps are exactly the tiles [wtrc_a] for NW, [wtrc_c]
    for SW, [wtrc_d] for SE and [wtrc_b] for NE of those diagonal
    neighbors that lie inside the grid and whose sprite is not
    edge-canceling, each at most once and each at the pixel position and
    z-level of the cell itself. When every diagonal neighbor inside the
    grid has an edge-canceling sprite there is no cap. *)
Theorem water_cell_caps (layers : Layers) :
  (rectangular r → default_mapped r →
   ∃ layers', cell_body r ox oy z (x, y) layers = Ok layers') ∧
  (∀ layers',
     cell_body r ox oy z (x, y) layers = Ok layers' →
     ∃ n s e w nw sw se ne (caps : list RenderTile) (tile : string),
       get_neighbors r x y z = Ok [n; s; e; w; nw; sw; se; ne] ∧
       layers'
       = layers_append z
           (mkRenderTile ((x - ox) * TILE_SIZE) ((y - oy) * TILE_SIZE) z tile false)
           (foldl add_cap layers caps) ∧
       (∀ t, t ∈ caps ↔
             ∃ nb letter,
               (nb, letter) ∈ [(nw, "a"); (sw, "c"); (se, "d"); (ne, "b")] ∧
               draws_against (r_map r) nb ∧
               t = mkRenderTile ((x - ox) * TILE_SIZE) ((y - oy) * TILE_SIZE) z
                     ("wtrc_" +:+ letter) false) ∧
       NoDup caps ∧
       ((∀ nb, nb ∈ [nw; sw; se; ne] → rt_out_of_bounds nb = false →
               ∃ name, tile_name_of (r_map r) (rt_tile nb) = Ok name ∧
                       name ∈ WATER_EDGE_CANCELERS) →
        caps = [])).
Proof.
  split.
  - apply cell_body_water_returns.
  - intros layers' H.
    apply cell_body_water in H
      as (n & s & e & w & nw & sw & se & ne & Hns & _ & ->).
    exists n, s, e, w, nw, sw, se, ne. do 2 eexists.
    split; [done|]. split; [done|].
    split; [apply elem_of_cap_tiles|].
    split; [apply cap_tiles_NoDup|apply cap_tiles_none].
Qed.

End water_cell.

Lemma water_cell_edge_codes_witness :
  (∃ layers', cell_body lake_renderer 0 0 0 (1, 1) [] = Ok layers') ∧
  get_tile_name lake_renderer "w" = "wtr".
Proof.
  pose proof (water_cell_edge_codes lake_renderer 0 0 0 1 1 "w"
                eq_refl eq_refl eq_refl ltac:(discriminate) eq_refl []) as [Hret Hshape].
  destruct (Hret rectangular_lake (ex_intro _ "grs" eq_refl)) as [layers' Hrun].
  split; [by exists layers'|].
  destruct (Hshape layers' Hrun)
    as (n & s & e & w & nw & sw & se & ne & codes & layers1 & H).
  apply H.
Defined.

Lemma water_cell_caps_witness :
  ∃ layers', cell_body lake_renderer 0 0 0 (1, 1) [] = Ok layers' ∧
             layer_keys layers' = [1; 2; 0].
Proof.
  pose proof (water_cell_caps lake_renderer 0 0 0 1 1 "w"
                eq_refl eq_refl eq_refl ltac:(discriminate) eq_refl []) as [Hret _].
  destruct (Hret rectangular_lake (ex_intro _ "grs" eq_refl)) as [layers' Hrun].
  exists layers'. split; [done|].
  vm_compute in Hrun. injection Hrun as <-. reflexivity.
Defined.

(** ** A single cell of water *)

Lemma list_getitem_0 {A : Type} (a : A) (l : list A) : list_getitem (a :: l) 0 = Ok a.
Proof. by apply list_getitem_nonneg. Qed.

Lemma str_getitem_single (sym : string) :
  String.length sym = 1%nat → str_getitem sym 0 = Ok sym.
Proof. by destruct sym as [|c [|c' rest]]. Qed.

(** C10. A map whose z-level 0 is a single cell of water, rendered with
    edge rendering on: construction returns, the eight neighbors of the
    cell are all out of bounds, and the loop body appends for the cell
    exactly one tile, its own symbol (whose sprite is [wtr]: no edge
    suffix), to layer 0 and adds no cap, whatever the origin and the
    layers so far; when the map has no other z-level the full-map result
    is that single tile. *)
Theorem single_cell_water (m : Map) (x y vis : Z) (sym : string)
    (others : list (list string)) :
  m_layers m = [sym] :: others →
  String.length sym = 1%nat →
  sym ≠ " " →
  m_tiles m !! sym = Some "wtr" →
  ∃ r, init m x y vis true = Ok r ∧
       rows r = 1 ∧ cols r = 1 ∧
       get_neighbors r 0 0 0
       = Ok [mkRenderTile 0 (-1) 0 (m_border m) true;
             mkRenderTile 0 1 0 (m_border m) true;
             mkRenderTile 1 0 0 (m_border m) true;
             mkRenderTile (-1) 0 0 (m_border m) true;
             mkRenderTile (-1) (-1) 0 (m_border m) true;
             mkRenderTile (-1) 1 0 (m_border m) true;
             mkRenderTile 1 1 0 (m_border m) true;
             mkRenderTile 1 (-1) 0 (m_border m) true] ∧
       (∀ ox oy layers,
          cell_body r ox oy 0 (0, 0) layers
          = Ok (layers_append 0
                  (mkRenderTile ((0 - ox) * TILE_SIZE) ((0 - oy) * TILE_SIZE) 0
                     sym false) layers)) ∧
       get_tile_name r sym = "wtr" ∧
       (others = [] →
        tile_mapper r true = Ok [(0, [mkRenderTile 0 0 0 sym false])]).
Proof.
  intros Hm Hlen Hblank Hwater.
  set (r := mkMapRenderer m 1 1 (Z.lor vis 1) (Z.lor vis 1 `div` 2) x y true).
  assert (get_neighbors r 0 0 0
          = Ok [mkRenderTile 0 (-1) 0 (m_border m) true;
                mkRenderTile 0 1 0 (m_border m) true;
                mkRenderTile 1 0 0 (m_border m) true;
                mkRenderTile (-1) 0 0 (m_border m) true;
                mkRenderTile (-1) (-1) 0 (m_border m) true;
                mkRenderTile (-1) 1 0 (m_border m) true;
                mkRenderTile 1 1 0 (m_border m) true;
                mkRenderTile 1 (-1) 0 (m_border m) true]) as Hns by reflexivity.
  assert (grid_symbol (r_map r) 0 0 0 = Ok sym) as Hsym.
  { unfold grid_symbol. simpl r_map. rewrite Hm, list_getitem_0. run_bind.
    rewrite list_getitem_0. run_bind. by apply str_getitem_single. }
  assert (∀ ox oy layers,
            cell_body r ox oy 0 (0, 0) layers
            = Ok (layers_append 0
                    (mkRenderTile ((0 - ox) * TILE_SIZE) ((0 - oy) * TILE_SIZE) 0
                       sym false) layers)) as Hcell.
  { intros ox oy layers.
    apply (cell_body_water r ox oy 0 0 0 sym); try done.
    do 8 eexists. split; [exact Hns|]. split; [|reflexivity].
    repeat (apply Forall_cons; split; [by left|]). apply Forall_nil_2. }
  exists r. split.
  { unfold init. rewrite Hm, list_getitem_0. run_bind.
    rewrite list_getitem_0. run_bind. simpl length. by rewrite Hlen. }
  do 2 (split; [done|]). split; [exact Hns|]. split; [exact Hcell|].
  split; [by apply get_tile_name_water|].
  intros ->. rewrite tile_mapper_unfold. unfold depth. simpl r_map. rewrite Hm.
  change (range 0 (Z.of_nat (length [[sym]]))) with [0].
  change (cells r true) with [(0, 0)].
  cbn [for_each]. by rewrite Hcell.
Qed.

Lemma single_cell_water_witness :
  ∃ r, init pond 0 0 9 true = Ok r ∧
       tile_mapper r true = Ok [(0, [mkRenderTile 0 0 0 "w" false])].
Proof.
  destruct (single_cell_water pond 0 0 9 "w" [] eq_refl eq_refl
              ltac:(discriminate) eq_refl)
    as (r & Hinit & _ & _ & _ & _ & _ & Hfull).
  exists r. split; [done|]. by apply Hfull.
Defined.

(** ** Edge rendering switched off *)

Lemma for_each_cells_edges_off (r : MapRenderer) (ox oy z : Z) (cs : list (Z * Z))
    (layers layers' : Layers) :
  render_water_edges r = false →
  (∀ x y, (x, y) ∈ cs → is_out_of_bounds r x y = false) →
  for_each (cell_body r ox oy z) cs layers = Ok layers' →
  layers' = layers.
Proof.
  intros Hflag. revert layers.
  induction cs as [|[x y] cs IH]; intros layers Hin H; cbn [for_each] in H.
  - by injection H.
  - apply bind_Ok in H as (layers1 & Hcell & H).
    assert (layers1 = layers) as ->.
    { assert (is_out_of_bounds r x y = false) as Hoob by (apply Hin; left).
      destruct (grid_symbol (r_map r) z y x) as [sym|e] eqn:Hsym.
      - rewrite (cell_body_edges_off r ox oy z x y sym) in Hcell by done.
        by injection Hcell.
      - by rewrite (cell_body_raise r ox oy z x y layers e) in Hcell. }
    apply IH; [|done]. intros x' y' Hin'. apply Hin. by right.
Qed.

(** With the flag off a full-map run that returns has produced nothing
    at all. *)
Lemma tile_mapper_edges_off (r : MapRenderer) (layers : Layers) :
  render_water_edges r = false →
  tile_mapper r true = Ok layers → layers = [].
Proof.
  intros Hflag. rewrite tile_mapper_unfold.
  generalize (range 0 (depth r)). intros zs. generalize (@nil (Z * list RenderTile)).
  induction zs as [|z zs IH]; intros layers0 H; cbn [for_each] in H.
  - by injection H.
  - apply bind_Ok in H as (layers1 & Hz & H).
    apply for_each_cells_edges_off in Hz as ->; [by apply IH|done|].
    intros x y Hin. apply (elem_of_cells r true) in Hin.
    by apply is_out_of_bounds_false.
Qed.

(** C1, on the code. With [render_water_edges] false the loop body
    leaves every cell of the grid without a tile, water or not: the
    single water cell of [pond] and the nine cells of [lake] yield the
    empty collection, where the flag-on runs yield the plain water tile
    and, for [lake], five grass tiles among the nine. No cap layer
    appears, but neither does the plain water tile, and the grass tiles
    are gone too. *)
Theorem edges_off_drops_tiles :
  run pond 0 0 9 false true = Ok [] ∧
  run pond 0 0 9 true true = Ok [(0, [mkRenderTile 0 0 0 "w" false])] ∧
  run lake 0 0 9 false true = Ok [] ∧
  (filter (λ t, rt_tile t = "g") ∘ all_tiles) <$> run lake 0 0 9 true true
  = Ok [mkRenderTile 0 0 0 "g" false; mkRenderTile 0 40 0 "g" false;
        mkRenderTile 40 0 0 "g" false; mkRenderTile 80 0 0 "g" false;
        mkRenderTile 80 40 0 "g" false].
Proof. repeat split; reflexivity. Qed.

(** ** Where the caps land *)

(** C2, on the code. A cap goes to key [len(layers) + 1], which need
    not be free and need not lie above the z-levels. In [overlay] the
    water of z-level 2 is reached when the collection holds the single
    key 2 (the grass of that level): the cap [wtrc_a] is appended to
    layer 2 itself, between the grass and the water tile. In [stacked]
    the cap of z-level 0 opens layer 1, which then receives the content
    of z-level 1, and layer 1 is inserted before layer 0. *)
Theorem cap_layer_not_fresh :
  cell_body (mkMapRenderer overlay 2 2 9 4 0 0 true) 0 0 2 (1, 1)
    [(2, [mkRenderTile 0 0 2 "g" false])]
  = Ok [(2, [mkRenderTile 0 0 2 "g" false;
             mkRenderTile 40 40 2 "wtrc_a" false;
             mkRenderTile 40 40 2 "wtr_nw" false])] ∧
  run overlay 0 0 9 true true
  = Ok [(2, [mkRenderTile 0 0 2 "g" false;
             mkRenderTile 40 40 2 "wtrc_a" false;
             mkRenderTile 40 40 2 "wtr_nw" false])] ∧
  run stacked 0 0 9 true true
  = Ok [(1, [mkRenderTile 0 0 0 "wtrc_d" false;
             mkRenderTile 0 0 1 "c" false]);
        (0, [mkRenderTile 0 0 0 "wtr_se" false;
             mkRenderTile 0 40 0 "g" false;
             mkRenderTile 40 0 0 "g" false;
             mkRenderTile 40 40 0 "g" false])].
Proof. repeat split; reflexivity. Qed.

(** On a map with a single z-level the keys stay bounded by their
    number, and there the caps do open new layers above layer 0. *)

Lemma layer_keys_append_used (k : Z) (t : RenderTile) (layers : Layers) :
  k ∈ layer_keys layers → layer_keys (layers_append k t layers) = layer_keys layers.
Proof.
  unfold layer_keys. induction layers as [|[k' ts] rest IH]; intros Hin.
  - by apply elem_of_nil in Hin.
  - cbn [layers_append]. case_bool_decide as Hk; [done|].
    cbn [fmap list_fmap fst] in *. f_equal. apply IH.
    apply elem_of_cons in Hin as [?|?]; [done|done].
Qed.

Lemma layer_keys_append_fresh (k : Z) (t : RenderTile) (layers : Layers) :
  k ∉ layer_keys layers →
  layer_keys (layers_append k t layers) = layer_keys layers ++ [k].
Proof.
  unfold layer_keys. induction layers as [|[k' ts] rest IH]; intros Hnin; [done|].
  cbn [layers_append]. cbn [fmap list_fmap fst] in Hnin.
  apply not_elem_of_cons in Hnin as [Hne Hnin].
  rewrite bool_decide_eq_false_2 by done.
  cbn [fmap list_fmap fst app]. f_equal. by apply IH.
Qed.

Lemma add_cap_fresh (layers : Layers) :
  keys_bounded layers → layers_len layers + 1 ∉ layer_keys layers.
Proof. intros Hb Hin. apply Hb in Hin. lia. Qed.

Lemma layers_len_keys (layers : Layers) :
  layers_len layers = Z.of_nat (length (layer_keys layers)).
Proof. unfold layers_len, layer_keys. by rewrite length_fmap. Qed.

Lemma keys_bounded_add_cap (layers : Layers) (t : RenderTile) :
  keys_bounded layers → keys_bounded (add_cap layers t).
Proof.
  intros Hb k. unfold add_cap. rewrite (layers_len_keys (layers_append _ _ _)).
  rewrite layer_keys_append_fresh by by apply add_cap_fresh.
  rewrite length_app, elem_of_app, list_elem_of_singleton.
  pose proof (layers_len_keys layers) as Hlen. simpl length.
  intros [Hin| ->]; [apply Hb in Hin|]; lia.
Qed.

Lemma keys_bounded_append_0 (layers : Layers) (t : RenderTile) :
  keys_bounded layers → keys_bounded (layers_append 0 t layers).
Proof.
  intros Hb k. rewrite (layers_len_keys (layers_append _ _ _)).
  destruct (decide (0 ∈ layer_keys layers)) as [Hin|Hnin].
  - rewrite layer_keys_append_used by done. rewrite <-layers_len_keys. apply Hb.
  - rewrite layer_keys_append_fresh by done.
    rewrite length_app, elem_of_app, list_elem_of_singleton.
    pose proof (layers_len_keys layers) as Hlen. simpl length.
    intros [Hin| ->]; [apply Hb in Hin|]; lia.
Qed.

(** Under that bound every cap opens a layer of its own: the keys
    [len + 1], [len + 2], ... are appended, none of them in use before
    and all of them above 0. *)
Lemma add_caps_fresh (caps : list RenderTile) (layers : Layers) :
  keys_bounded layers →
  keys_bounded (foldl add_cap layers caps) ∧
  layer_keys (foldl add_cap layers caps)
  = layer_keys layers ++
    ((λ i : nat, layers_len layers + 1 + Z.of_nat i) <$> seq 0 (length caps)).
Proof.
  revert layers. induction caps as [|t caps IH]; intros layers Hb; cbn [foldl].
  - split; [done|]. by rewrite app_nil_r.
  - destruct (IH (add_cap layers t) (keys_bounded_add_cap layers t Hb)) as [Hb' ->].
    split; [done|]. unfold add_cap at 1.
    rewrite layer_keys_append_fresh by by apply add_cap_fresh.
    rewrite <-app_assoc. f_equal. cbn [length seq fmap list_fmap app].
    f_equal; [lia|]. rewrite <-fmap_S_seq, <-list_fmap_compose.
    apply list_fmap_ext. intros i j _. cbn.
    rewrite (layers_len_keys (add_cap layers t)). unfold add_cap.
    rewrite layer_keys_append_fresh by by apply add_cap_fresh.
    rewrite length_app, (layers_len_keys layers). simpl length. lia.
Qed.

Lemma cell_body_keys_bounded (r : MapRenderer) (ox oy x y : Z)
    (layers layers' : Layers) :
  cell_body r ox oy 0 (x, y) layers = Ok layers' →
  keys_bounded layers → keys_bounded layers'.
Proof.
  intros H Hb.
  destruct (is_out_of_bounds r x y) eqn:Hoob.
  { rewrite cell_body_border in H by done. injection H as <-.
    by apply keys_bounded_append_0. }
  destruct (grid_symbol (r_map r) 0 y x) as [sym|e] eqn:Hsym;
    [|by rewrite (cell_body_raise r ox oy 0 x y layers e) in H].
  destruct (decide (sym = " ")) as [->|Hblank].
  { rewrite cell_body_blank in H by done. by injection H as <-. }
  destruct (render_water_edges r) eqn:Hflag.
  2:{ rewrite (cell_body_edges_off r _ _ 0 x y sym) in H by done.
      by injection H as <-. }
  destruct (decide (m_tiles (r_map r) !! sym = Some "wtr")) as [Hwater|Hplain].
  - apply (cell_body_water r ox oy 0 x y sym Hflag Hoob Hsym Hblank Hwater) in H
      as (n & s & e & w & nw & sw & se & ne & _ & _ & ->).
    by apply keys_bounded_append_0, add_caps_fresh.
  - rewrite (cell_body_plain r _ _ 0 x y sym) in H by done. injection H as <-.
    by apply keys_bounded_append_0.
Qed.

Lemma single_level_keys_bounded (r : MapRenderer) (full_map : bool) (layers : Layers) :
  depth r = 1 → tile_mapper r full_map = Ok layers → keys_bounded layers.
Proof.
  intros Hdepth. rewrite tile_mapper_unfold, Hdepth.
  change (range 0 1) with [0]. cbn [for_each]. intros H.
  apply bind_Ok in H as (layers1 & H & [= <-]).
  assert (keys_bounded []) as Hnil by (by intros k Hk%elem_of_nil).
  revert H Hnil. generalize (@nil (Z * list RenderTile)).
  induction (cells r full_map) as [|[x y] cs IH]; intros layers0 H Hb;
    cbn [for_each] in H.
  - by injection H as <-.
  - apply bind_Ok in H as (layers2 & Hcell & H).
    apply (IH layers2 H). by eapply cell_body_keys_bounded.
Qed.

(** ** The tiles of a cell do not depend on the origin *)

Lemma all_tiles_layers_append (k : Z) (t : RenderTile) (layers : Layers) :
  all_tiles (layers_append k t layers) ≡ₚ all_tiles layers ++ [t].
Proof.
  unfold all_tiles. induction layers as [|[k' ts] rest IH]; [done|].
  cbn [layers_append]. case_bool_decide; cbn [fmap list_fmap concat snd].
  - rewrite <-!app_assoc. f_equiv. apply Permutation_app_comm.
  - fold (@fmap list _ _ _ (@snd Z (list RenderTile)) (layers_append k t rest)).
    fold (@fmap list _ _ _ (@snd Z (list RenderTile)) rest).
    by rewrite IH, app_assoc.
Qed.

Lemma all_tiles_add_caps (caps : list RenderTile) (layers : Layers) :
  all_tiles (foldl add_cap layers caps) ≡ₚ all_tiles layers ++ caps.
Proof.
  revert layers. induction caps as [|t caps IH]; intros layers; cbn [foldl].
  - by rewrite app_nil_r.
  - rewrite IH. unfold add_cap. rewrite all_tiles_layers_append.
    by rewrite <-app_assoc.
Qed.

Lemma cap_tiles_shift (m : Map) (ox oy x y z : Z) (nw sw se ne : RenderTile) :
  shift_tile ox oy <$>
    cap_tiles m ((x - 0) * TILE_SIZE) ((y - 0) * TILE_SIZE) z nw sw se ne
  = cap_tiles m ((x - ox) * TILE_SIZE) ((y - oy) * TILE_SIZE) z nw sw se ne.
Proof.
  unfold cap_tiles. rewrite <-list_fmap_compose. apply list_fmap_ext.
  intros i letter _. unfold shift_tile. simpl. f_equal; lia.
Qed.

Lemma cell_body_tiles (r : MapRenderer) (ox oy z x y : Z) (layers layers' : Layers) :
  cell_body r ox oy z (x, y) layers = Ok layers' →
  ∃ ts, cell_tiles r z x y = Ok ts ∧
        all_tiles layers' ≡ₚ all_tiles layers ++ (shift_tile ox oy <$> ts) ∧
        Forall (at_cell x y z) ts.
Proof.
  intros H. unfold cell_tiles.
  assert (∀ s b,
            shift_tile ox oy
              (mkRenderTile ((x - 0) * TILE_SIZE) ((y - 0) * TILE_SIZE) z s b)
            = mkRenderTile ((x - ox) * TILE_SIZE) ((y - oy) * TILE_SIZE) z s b)
    as Hshift.
  { intros s b. unfold shift_tile. simpl. f_equal; lia. }
  assert (∀ s b,
            at_cell x y z
              (mkRenderTile ((x - 0) * TILE_SIZE) ((y - 0) * TILE_SIZE) z s b))
    as Hat.
  { intros s b. unfold at_cell. simpl. lia. }
  destruct (is_out_of_bounds r x y) eqn:Hoob.
  { destruct (decide (z = 0)) as [->|Hz].
    - rewrite cell_body_border in H by done.
      rewrite cell_body_border by done. injection H as <-.
      eexists. split; [done|]. rewrite all_tiles_layers_append.
      split; [|by apply Forall_singleton].
      cbn. by rewrite Hshift.
    - rewrite cell_body_outside in H by done.
      rewrite cell_body_outside by done. injection H as <-.
      exists []. split; [done|]. by rewrite app_nil_r. }
  destruct (grid_symbol (r_map r) z y x) as [sym|e] eqn:Hsym;
    [|by rewrite (cell_body_raise r ox oy z x y layers e) in H].
  destruct (decide (sym = " ")) as [->|Hblank].
  { rewrite cell_body_blank in H by done.
    rewrite cell_body_blank by done. injection H as <-.
    exists []. split; [done|]. by rewrite app_nil_r. }
  destruct (render_water_edges r) eqn:Hflag.
  2:{ rewrite (cell_body_edges_off r _ _ z x y sym) in H by done.
      rewrite (cell_body_edges_off r _ _ z x y sym) by done.
      injection H as <-. exists []. split; [done|]. by rewrite app_nil_r. }
  destruct (decide (m_tiles (r_map r) !! sym = Some "wtr")) as [Hwater|Hplain].
  - apply (cell_body_water r ox oy z x y sym Hflag Hoob Hsym Hblank Hwater) in H
      as (n & s & e & w & nw & sw & se & ne & Hns & Hres & ->).
    rewrite (proj2 (cell_body_water r 0 0 z x y sym Hflag Hoob Hsym Hblank Hwater [] _)
               (ex_intro _ n (ex_intro _ s (ex_intro _ e (ex_intro _ w
                 (ex_intro _ nw (ex_intro _ sw (ex_intro _ se (ex_intro _ ne
                   (conj Hns (conj Hres eq_refl))))))))))).
    eexists. split; [done|]. split.
    + rewrite !all_tiles_layers_append, !all_tiles_add_caps.
      cbn [all_tiles fmap list_fmap concat app].
      rewrite fmap_app, cap_tiles_shift. cbn [fmap list_fmap].
      by rewrite Hshift, <-app_assoc.
    + eapply Forall_forall. intros t Ht.
      rewrite all_tiles_layers_append, all_tiles_add_caps in Ht.
      cbn [all_tiles fmap list_fmap concat app] in Ht.
      apply elem_of_app in Ht as [Ht|Ht%list_elem_of_singleton]; [|by subst].
      unfold cap_tiles in Ht. apply list_elem_of_fmap in Ht as (letter & -> & _).
      apply Hat.
  - rewrite (cell_body_plain r _ _ z x y sym) in H by done.
    rewrite (cell_body_plain r _ _ z x y sym) by done.
    injection H as <-. eexists. split; [done|].
    rewrite all_tiles_layers_append. split; [|by apply Forall_singleton].
    cbn. by rewrite Hshift.
Qed.

Lemma cell_tiles_at_cell (r : MapRenderer) (z x y : Z) (ts : list RenderTile) :
  cell_tiles r z x y = Ok ts → Forall (at_cell x y z) ts.
Proof.
  intros H. pose proof H as Hrun. unfold cell_tiles in Hrun.
  destruct (cell_body r 0 0 z (x, y) []) as [layers0|e] eqn:Hbody; [|done].
  apply cell_body_tiles in Hbody as (ts' & Hts' & _ & Hat). congruence.
Qed.

Lemma for_each_cells_elem (r : MapRenderer) (ox oy z : Z) (cs : list (Z * Z))
    (layers layers' : Layers) (t : RenderTile) :
  for_each (cell_body r ox oy z) cs layers = Ok layers' →
  t ∈ all_tiles layers' ↔
  t ∈ all_tiles layers ∨
  ∃ x y ts t0, (x, y) ∈ cs ∧ cell_tiles r z x y = Ok ts ∧ t0 ∈ ts ∧
               t = shift_tile ox oy t0.
Proof.
  revert layers. induction cs as [|[x y] cs IH]; intros layers H;
    cbn [for_each] in H.
  - injection H as <-. split; [by left|]. intros [?|(x & y & ts & t0 & Hin & _)]; [done|].
    by apply elem_of_nil in Hin.
  - apply bind_Ok in H as (layers1 & Hcell & H).
    rewrite (IH layers1 H).
    apply cell_body_tiles in Hcell as (ts & Hts & Hperm & _).
    rewrite Hperm, elem_of_app, list_elem_of_fmap. split.
    + intros [[Hold|(t0 & -> & Ht0)]|(x' & y' & ts' & t0 & Hin & Hrest)].
      * by left.
      * right. exists x, y, ts, t0. split; [by left|done].
      * right. exists x', y', ts', t0. split; [by right|done].
    + intros [Hold|(x' & y' & ts' & t0 & Hin & Hts' & Ht0 & ->)]; [by left; left|].
      apply elem_of_cons in Hin as [[= -> ->]|Hin].
      * left; right. exists t0. split; [done|]. congruence.
      * right. by exists x', y', ts', t0.
Qed.

Lemma for_each_levels_elem (r : MapRenderer) (ox oy : Z) (cs : list (Z * Z))
    (zs : list Z) (layers layers' : Layers) (t : RenderTile) :
  for_each (λ z layers, for_each (cell_body r ox oy z) cs layers) zs layers
  = Ok layers' →
  t ∈ all_tiles layers' ↔
  t ∈ all_tiles layers ∨
  ∃ z x y ts t0, z ∈ zs ∧ (x, y) ∈ cs ∧ cell_tiles r z x y = Ok ts ∧ t0 ∈ ts ∧
                 t = shift_tile ox oy t0.
Proof.
  revert layers. induction zs as [|z zs IH]; intros layers H;
    cbn [for_each] in H.
  - injection H as <-. split; [by left|].
    intros [?|(z & x & y & ts & t0 & Hin & _)]; [done|].
    by apply elem_of_nil in Hin.
  - apply bind_Ok in H as (layers1 & Hlevel & H).
    rewrite (IH layers1 H), (for_each_cells_elem r ox oy z cs layers layers1 t Hlevel).
    split.
    + intros [[Hold|(x & y & ts & t0 & Hrest)]|(z' & x & y & ts & t0 & Hz & Hrest)].
      * by left.
      * right. exists z, x, y, ts, t0. split; [by left|done].
      * right. exists z', x, y, ts, t0. split; [by right|done].
    + intros [Hold|(z' & x & y & ts & t0 & Hz & Hrest)]; [by left; left|].
      apply elem_of_cons in Hz as [->|Hz].
      * left; right. by exists x, y, ts, t0.
      * right. by exists z', x, y, ts, t0.
Qed.

(** The tiles of a run are the tiles of the cells it visits, moved to
    the frame of its origin. *)
Lemma tile_mapper_elem (r : MapRenderer) (full_map : bool) (layers : Layers)
    (t : RenderTile) :
  tile_mapper r full_map = Ok layers →
  t ∈ all_tiles layers ↔
  ∃ z x y ts t0,
    0 ≤ z < depth r ∧ (x, y) ∈ cells r full_map ∧
    cell_tiles r z x y = Ok ts ∧ t0 ∈ ts ∧
    t = shift_tile (x_origin r full_map) (y_origin r full_map) t0.
Proof.
  rewrite tile_mapper_unfold. intros H.
  rewrite (for_each_levels_elem _ _ _ _ _ _ _ t H). split.
  - intros [Hnil|(z & x & y & ts & t0 & Hz & Hrest)]; [by apply elem_of_nil in Hnil|].
    apply elem_of_range in Hz. by exists z, x, y, ts, t0.
  - intros (z & x & y & ts & t0 & Hz & Hrest). right.
    exists z, x, y, ts, t0. split; [by apply elem_of_range|done].
Qed.

Lemma tile_mapper_modes (r : MapRenderer) (fm1 fm2 : bool) (layers1 layers2 : Layers)
    (x y z : Z) (tile : string) (oob : bool) :
  tile_mapper r fm1 = Ok layers1 →
  tile_mapper r fm2 = Ok layers2 →
  (x, y) ∈ cells r fm2 →
  mkRenderTile ((x - x_origin r fm1) * TILE_SIZE) ((y - y_origin r fm1) * TILE_SIZE)
    z tile oob ∈ all_tiles layers1 →
  mkRenderTile ((x - x_origin r fm2) * TILE_SIZE) ((y - y_origin r fm2) * TILE_SIZE)
    z tile oob ∈ all_tiles layers2.
Proof.
  intros H1 H2 Hcell Hin.
  apply (tile_mapper_elem r fm1 layers1 _ H1) in Hin
    as (z' & x' & y' & ts & t0 & Hz & _ & Hts & Ht0 & Heq).
  pose proof (cell_tiles_at_cell r z' x' y' ts Hts) as Hat.
  rewrite Forall_forall in Hat. destruct (Hat t0 Ht0) as (Hx & Hy & Hz').
  unfold shift_tile in Heq. injection Heq as Hx0 Hy0 Hz0 Htile Hoob.
  unfold TILE_SIZE in *.
  assert (x' = x) as -> by lia. assert (y' = y) as -> by lia.
  assert (z' = z) as -> by lia.
  apply (tile_mapper_elem r fm2 layers2 _ H2).
  exists z, x, y, ts, t0. do 4 (split; [done|]).
  unfold shift_tile, TILE_SIZE. rewrite <-Htile, <-Hoob. f_equal; lia.
Qed.

(** *** Well-formed maps are rendered *)

Lemma for_each_returns {A S : Type} (body : A → S → result S) (l : list A) (s : S) :
  (∀ a s0, a ∈ l → ∃ s', body a s0 = Ok s') → ∃ s', for_each body l s = Ok s'.
Proof.
  revert s. induction l as [|a l IH]; intros s H; cbn [for_each]; [by eexists|].
  destruct (H a s) as [s1 ->]; [by left|]. run_bind.
  apply IH. intros a' s0 Ha'. apply H. by right.
Qed.

Lemma cell_body_returns (r : MapRenderer) (ox oy z x y : Z) (layers : Layers) :
  rectangular r → default_mapped r → 0 ≤ z < depth r →
  ∃ layers', cell_body r ox oy z (x, y) layers = Ok layers'.
Proof.
  intros Hrect Hd Hz.
  destruct (is_out_of_bounds r x y) eqn:Hoob.
  { destruct (decide (z = 0)) as [->|Hz0].
    - rewrite cell_body_border by done. by eexists.
    - rewrite cell_body_outside by done. by eexists. }
  destruct (grid_symbol_in_range r x y z Hrect) as [sym Hsym]; [lia|done|].
  destruct (decide (sym = " ")) as [->|Hblank].
  { rewrite cell_body_blank by done. by eexists. }
  destruct (render_water_edges r) eqn:Hflag.
  2:{ rewrite (cell_body_edges_off r _ _ z x y sym) by done. by eexists. }
  destruct (decide (m_tiles (r_map r) !! sym = Some "wtr")) as [Hwater|Hplain].
  - by eapply cell_body_water_returns.
  - rewrite (cell_body_plain r _ _ z x y sym) by done. by eexists.
Qed.

Lemma tile_mapper_returns (r : MapRenderer) (full_map : bool) :
  rectangular r → default_mapped r → ∃ layers, tile_mapper r full_map = Ok layers.
Proof.
  intros Hrect Hd. rewrite tile_mapper_unfold.
  apply for_each_returns. intros z layers Hz%elem_of_range.
  apply for_each_returns. intros [x y] layers0 _.
  by apply cell_body_returns.
Qed.

(** C9. A rectangular map whose default category has a sprite is
    rendered in both modes. And whenever both runs return, a cell
    [(x, y)] that lies in the grid and in the visibility window carries
    the same tiles in the full-map result and in the windowed result,
    the main tile with its edge suffix and every cap alike: a tile of
    sprite reference [tile] and flag [oob] for z-level [z] sits at the
    cell's full-map pixel position [(x * TILE_SIZE, y * TILE_SIZE)] in
    the one exactly when one sits at [((x - x_origin) * TILE_SIZE,
    (y - y_origin) * TILE_SIZE)] in the other, [(x_origin, y_origin)
    = (x_viewer - radius, y_viewer - radius)] being the origin of the
    window. *)
Theorem full_map_window_agree (r : MapRenderer) :
  (rectangular r → default_mapped r →
   ∃ full windowed,
     tile_mapper r true = Ok full ∧ tile_mapper r false = Ok windowed) ∧
  (∀ (full windowed : Layers) (x y z : Z) (tile : string) (oob : bool),
     tile_mapper r true = Ok full →
     tile_mapper r false = Ok windowed →
     0 ≤ x < cols r → 0 ≤ y < rows r →
     r_x r - radius r ≤ x ≤ r_x r + radius r →
     r_y r - radius r ≤ y ≤ r_y r + radius r →
     mkRenderTile (x * TILE_SIZE) (y * TILE_SIZE) z tile oob ∈ all_tiles full ↔
     mkRenderTile ((x - (- radius r + r_x r)) * TILE_SIZE)
       ((y - (- radius r + r_y r)) * TILE_SIZE) z tile oob ∈ all_tiles windowed).
Proof.
  split.
  { intros Hrect Hd.
    destruct (tile_mapper_returns r true Hrect Hd) as [full Hfull].
    destruct (tile_mapper_returns r false Hrect Hd) as [windowed Hwin].
    by exists full, windowed. }
  intros full windowed x y z tile oob Hfull Hwin Hx Hy Hwx Hwy.
  assert ((x, y) ∈ cells r true) as Hcf by (by apply elem_of_cells).
  assert ((x, y) ∈ cells r false) as Hcw by (by apply elem_of_cells).
  pose proof (tile_mapper_modes r true false full windowed x y z tile oob
                Hfull Hwin Hcw) as Hfw.
  pose proof (tile_mapper_modes r false true windowed full x y z tile oob
                Hwin Hfull Hcf) as Hwf.
  change (x_origin r true) with 0 in *. change (y_origin r true) with 0 in *.
  change (x_origin r false) with (- radius r + r_x r) in *.
  change (y_origin r false) with (- radius r + r_y r) in *.
  rewrite !Z.sub_0_r in *. by split.
Qed.

Lemma full_map_window_agree_witness :
  init lake 2 2 2 true = Ok lake_window ∧
  ∃ full windowed,
    tile_mapper lake_window true = Ok full ∧
    tile_mapper lake_window false = Ok windowed ∧
    mkRenderTile 40 40 0 "wtr_new" false ∈ all_tiles full ∧
    mkRenderTile 0 0 0 "wtr_new" false ∈ all_tiles windowed ∧
    mkRenderTile 0 0 0 "wtrc_b" false ∈ all_tiles windowed.
Proof.
  split; [reflexivity|].
  destruct (full_map_window_agree lake_window) as [Hret Hagree].
  destruct (Hret ltac:(repeat constructor) (ex_intro _ "grs" eq_refl))
    as (full & windowed & Hfull & Hwin).
  exists full, windowed. split; [done|]. split; [done|].
  assert (mkRenderTile 40 40 0 "wtr_new" false ∈ all_tiles full
          ∧ mkRenderTile 40 40 0 "wtrc_b" false ∈ all_tiles full) as [Hmain Hcap].
  { vm_compute in Hfull. injection Hfull as <-.
    split; apply (bool_decide_unpack _); vm_compute; exact I. }
  split; [done|]. split.
  - apply (Hagree full windowed 1 1 0 "wtr_new" false Hfull Hwin);
      [simpl; lia..|done].
  - apply (Hagree full windowed 1 1 0 "wtrc_b" false Hfull Hwin);
      [simpl; lia..|done].
Defined.

(** * Further properties of the code *)

(** ** Construction: the visibility is made odd *)

Lemma lor_1_odd_id (v : Z) : Z.odd v = true → Z.lor v 1 = v.
Proof.
  intros Hodd. apply Z.bits_inj'. intros n Hn. rewrite Z.lor_spec.
  destruct (decide (n = 0)) as [->|Hne].
  - by rewrite Z.bit0_odd, Hodd.
  - replace (Z.testbit 1 n) with false; [by rewrite orb_false_r|].
    symmetry. apply (Z.bits_above_log2 1 n); simpl; lia.
Qed.

Lemma lor_1_even_succ (v : Z) : Z.even v = true → Z.lor v 1 = v + 1.
Proof.
  intros Heven. symmetry. apply Z.add_nocarry_lor.
  change 1 with (Z.ones 1). rewrite Z.land_ones by lia.
  apply Zeven_bool_iff, Zeven_ex_iff in Heven as [k ->].
  change (2 ^ 1) with 2. by rewrite Z.mul_comm, Z_mod_mult.
Qed.

Lemma init_Ok_fields (m : Map) (x y vis : Z) (rwe : bool) (r : MapRenderer) :
  init m x y vis rwe = Ok r →
  r_map r = m ∧ r_x r = x ∧ r_y r = y ∧ render_water_edges r = rwe ∧
  visibility r = Z.lor vis 1 ∧ radius r = Z.lor vis 1 `div` 2 ∧
  ∃ layer0 row0,
    list_getitem (m_layers m) 0 = Ok layer0 ∧ list_getitem layer0 0 = Ok row0 ∧
    rows r = Z.of_nat (length layer0) ∧ cols r = Z.of_nat (String.length row0).
Proof.
  unfold init. intros H.
  apply bind_Ok in H as (layer0 & Hl & H). apply bind_Ok in H as (row0 & Hr & H).
  injection H as <-. simpl. repeat split; try done. by exists layer0, row0.
Qed.

(** X1. Whatever integer is passed as visibility, negative ones
    included, the renderer built has an odd visibility: the value passed
    when it is odd, the next integer when it is even; and the window
    [2 * radius + 1] cells wide is exactly that visibility. *)
Theorem init_visibility_odd (m : Map) (x y vis : Z) (rwe : bool) (r : MapRenderer) :
  init m x y vis rwe = Ok r →
  Z.odd (visibility r) = true ∧
  (Z.odd vis = true → visibility r = vis) ∧
  (Z.even vis = true → visibility r = vis + 1) ∧
  visibility r = 2 * radius r + 1.
Proof.
  intros H. apply init_Ok_fields in H as (_ & _ & _ & _ & -> & -> & _).
  split; [|split; [|split]].
  - by rewrite <-Z.bit0_odd, Z.lor_spec, orb_true_r.
  - apply lor_1_odd_id.
  - apply lor_1_even_succ.
  - apply lor_1_odd.
Qed.

Lemma init_visibility_odd_witness :
  ∃ r, init lake 1 1 (-6) true = Ok r ∧ visibility r = -5 ∧ radius r = -3.
Proof.
  eexists. split; [reflexivity|].
  destruct (init_visibility_odd lake 1 1 (-6) true _ eq_refl) as (_ & _ & Heven & Hrad).
  split; [by apply Heven|reflexivity].
Defined.

(** ** The grid accessor below level 0 *)

Lemma list_getitem_negative {A : Type} (l : list A) (i : Z) :
  - Z.of_nat (length l) ≤ i < 0 →
  list_getitem l i = list_getitem l (i + Z.of_nat (length l)).
Proof.
  intros Hi. unfold list_getitem, py_index.
  rewrite (bool_decide_eq_false_2 (0 ≤ i < _)) by lia.
  rewrite (bool_decide_eq_true_2 (- _ ≤ i < 0)) by lia.
  by rewrite (bool_decide_eq_true_2 (0 ≤ i + _ < _)) by lia.
Qed.

(** X2. For a cell of the grid, a negative [z] down to [-depth] is not
    rejected: [get_tile_at] answers the symbol of z-level [z + depth]
    (counting from the last level), in a tile that keeps the negative
    [z]. *)
Theorem get_tile_at_negative_level (r : MapRenderer) (x y z : Z) :
  is_out_of_bounds r x y = false →
  - depth r ≤ z < 0 →
  get_tile_at r x y z
  = (λ t, mkRenderTile x y z (rt_tile t) false) <$> get_tile_at r x y (z + depth r).
Proof.
  intros Hoob Hz. unfold depth in *. unfold get_tile_at, grid_symbol.
  rewrite Hoob, (list_getitem_negative _ z) by done.
  destruct (list_getitem (m_layers (r_map r)) _) as [layer|e]; [|done].
  run_bind. destruct (list_getitem layer y) as [row|e]; [|done].
  run_bind. by destruct (str_getitem row x).
Qed.

Lemma get_tile_at_negative_level_witness :
  get_tile_at (mkMapRenderer stacked 2 2 9 4 0 0 true) 0 0 (-1)
  = Ok (mkRenderTile 0 0 (-1) "c" false).
Proof.
  rewrite (get_tile_at_negative_level (mkMapRenderer stacked 2 2 9 4 0 0 true) 0 0 (-1));
    [reflexivity|reflexivity|]. unfold depth. simpl. lia.
Defined.

(** ** What [tile_mapper] can raise *)

Lemma bind_Raise_inv {A B : Type} (f : A → result B) (ma : result A) (e : exn) :
  ma ≫= f = Raise e → ma = Raise e ∨ ∃ a, ma = Ok a ∧ f a = Raise e.
Proof.
  destruct ma as [a|e']; simpl; intros H.
  - right. by exists a.
  - injection H as ->. by left.
Qed.

Lemma for_each_Raise {A S : Type} (body : A → S → result S) (l : list A) (s : S)
    (e : exn) :
  for_each body l s = Raise e → ∃ a s0, a ∈ l ∧ body a s0 = Raise e.
Proof.
  revert s. induction l as [|a l IH]; intros s H; cbn [for_each] in H; [done|].
  apply bind_Raise_inv in H as [H|(s1 & _ & H)].
  - exists a, s. split; [by left|done].
  - destruct (IH s1 H) as (a' & s0 & Hin & Hraise).
    exists a', s0. split; [by right|done].
Qed.

Lemma tile_name_of_Raise (m : Map) (sym : string) (e : exn) :
  tile_name_of m sym = Raise e → e = KeyError.
Proof.
  unfold tile_name_of, dict_getitem.
  destruct (m_tiles m !! sym) as [t|]; [case_bool_decide|];
    destruct (m_tiles m !! m_default m); by intros [= <-].
Qed.

Lemma edge_body_Raise (m : Map) (ix : nat * RenderTile) (acc : list string) (e : exn) :
  edge_body m ix acc = Raise e → e = KeyError.
Proof.
  destruct ix as [i nb]. unfold edge_body. intros H.
  apply bind_Raise_inv in H as [H|(name & _ & H)].
  - destruct (rt_out_of_bounds nb); [done|]. by eapply tile_name_of_Raise.
  - case_bool_decide; [done|].
    apply bind_Raise_inv in H as [H|(code & _ & H)]; [|done].
    unfold water_lookup in H.
    do 4 (destruct i as [|i]; [done|]). by injection H as <-.
Qed.

Lemma cap_body_Raise (m : Map) (ordinal : list RenderTile) (x_out y_out z_index : Z)
    (il : nat * string) (layers : Layers) (e : exn) :
  (il.1 < length ordinal)%nat →
  cap_body m ordinal x_out y_out z_index il layers = Raise e → e = KeyError.
Proof.
  destruct il as [i letter]. simpl. intros Hi. unfold cap_body. intros H.
  destruct (list_getitem_in_range ordinal (Z.of_nat i)) as (nb & Hnb & _); [lia|].
  rewrite Hnb in H. cbn [mbind result_bind] in H.
  destruct (rt_out_of_bounds nb); [done|].
  apply bind_Raise_inv in H as [H|(name & _ & H)].
  - by eapply tile_name_of_Raise.
  - by case_bool_decide.
Qed.

Lemma water_case_Raise (r : MapRenderer) (x y z x_out y_out : Z) (sym : string)
    (layers : Layers) (e : exn) :
  rectangular r → - depth r ≤ z < depth r →
  water_case r x y z x_out y_out sym layers = Raise e → e = KeyError.
Proof.
  intros Hrect Hz. unfold water_case.
  destruct (get_neighbors_returns r x y z Hrect Hz)
    as (n & s & e' & w & nw & sw & se & ne & ->).
  run_bind.
  change (drop 4 [n; s; e'; w; nw; sw; se; ne]) with [nw; sw; se; ne].
  intros H. apply bind_Raise_inv in H as [H|(codes & _ & H)].
  - apply for_each_Raise in H as (ix & acc & _ & H). by eapply edge_body_Raise.
  - apply bind_Raise_inv in H as [H|(layers1 & _ & H)]; [|done].
    apply for_each_Raise in H as (il & layers0 & Hin & H).
    eapply cap_body_Raise; [|done].
    change (chars "acdb") with ["a"; "c"; "d"; "b"] in Hin.
    rewrite enumerate_4 in Hin. simpl.
    rewrite !elem_of_cons, elem_of_nil in Hin.
    destruct Hin as [->|[->|[->|[->|[]]]]]; simpl; lia.
Qed.

Lemma cell_body_Raise (r : MapRenderer) (ox oy z x y : Z) (layers : Layers) (e : exn) :
  rectangular r → 0 ≤ z < depth r →
  cell_body r ox oy z (x, y) layers = Raise e → e = KeyError.
Proof.
  intros Hrect Hz H.
  destruct (is_out_of_bounds r x y) eqn:Hoob.
  { destruct (decide (z = 0)) as [->|Hz0].
    - by rewrite cell_body_border in H.
    - by rewrite cell_body_outside in H. }
  destruct (grid_symbol_in_range r x y z Hrect) as [sym Hsym]; [lia|done|].
  unfold cell_body in H. rewrite Hoob, andb_false_r, Hsym in H. cbn [mbind result_bind] in H.
  case_bool_decide; [done|]. destruct (render_water_edges r); [|done].
  cbn [negb] in H. case_bool_decide; [|done].
  apply bind_Raise_inv in H as [H|([tile layers1] & _ & H)]; [|done].
  eapply water_case_Raise; [done| |done]. lia.
Qed.

(** X3. On a rectangular map [tile_mapper] returns, in either mode and
    with the flag on or off, as soon as the default category has a
    sprite; and the only exception it can raise there is the [KeyError]
    of the fall-back to the default category's sprite, which needs that
    sprite to be missing. *)
Theorem tile_mapper_exceptions (r : MapRenderer) (full_map : bool) :
  rectangular r →
  (default_mapped r → ∃ layers, tile_mapper r full_map = Ok layers) ∧
  (∀ e, tile_mapper r full_map = Raise e → e = KeyError ∧ ¬ default_mapped r).
Proof.
  intros Hrect. split; [by apply tile_mapper_returns|].
  intros e H. split.
  - rewrite tile_mapper_unfold in H.
    apply for_each_Raise in H as (z & layers0 & Hz%elem_of_range & H).
    apply for_each_Raise in H as ([x y] & layers1 & _ & H).
    by eapply cell_body_Raise.
  - intros Hd. destruct (tile_mapper_returns r full_map Hrect Hd) as [layers Hok].
    congruence.
Qed.

Lemma tile_mapper_exceptions_witness :
  (∃ layers, tile_mapper lake_window false = Ok layers) ∧
  init strand 0 0 9 true = Ok strand_renderer ∧
  tile_mapper strand_renderer true = Raise KeyError.
Proof.
  split; [|split; [reflexivity|]].
  - apply (proj1 (tile_mapper_exceptions lake_window false ltac:(repeat constructor))).
    by exists "grs".
  - destruct (tile_mapper strand_renderer true) as [layers|e] eqn:Hrun.
    + vm_compute in Hrun. discriminate Hrun.
    + f_equal.
      apply (proj2 (tile_mapper_exceptions strand_renderer true
                      ltac:(repeat constructor)) e Hrun).
Defined.

(** ** The tiles of a cell, by kind *)

Lemma fmap_Ok {A B : Type} (f : A → B) (ma : result A) (b : B) :
  f <$> ma = Ok b ↔ ∃ a, ma = Ok a ∧ b = f a.
Proof.
  destruct ma as [a|e]; simpl; split.
  - intros [= <-]. by exists a.
  - by intros (a' & [= <-] & ->).
  - done.
  - by intros (a' & [=] & _).
Qed.

Lemma str_getitem_length (s : string) (i : Z) (c : string) :
  str_getitem s i = Ok c → String.length c = 1%nat.
Proof.
  unfold str_getitem. intros H. apply bind_Ok in H as (k & _ & H).
  destruct (String.get k s); [|done]. by injection H as <-.
Qed.

Lemma grid_symbol_length (m : Map) (z y x : Z) (sym : string) :
  grid_symbol m z y x = Ok sym → String.length sym = 1%nat.
Proof.
  unfold grid_symbol. intros H.
  apply bind_Ok in H as (layer & _ & H). apply bind_Ok in H as (row & _ & H).
  by eapply str_getitem_length.
Qed.

Lemma border_tile_shift (r : MapRenderer) (ox oy x y : Z) :
  shift_tile ox oy (border_tile r 0 0 (x, y)) = border_tile r ox oy (x, y).
Proof. unfold shift_tile, border_tile. simpl. f_equal; lia. Qed.

Lemma cell_tiles_border (r : MapRenderer) (x y : Z) :
  is_out_of_bounds r x y = true →
  cell_tiles r 0 x y = Ok [border_tile r 0 0 (x, y)].
Proof. intros Hoob. unfold cell_tiles. by rewrite cell_body_border. Qed.

(** A tile of a cell is the border tile of a cell outside the grid at
    level 0, or a tile of a non-blank cell of the grid reached with the
    flag on: the cell's symbol, or, for water, an edge variant or a
    cap. *)
Lemma cell_tiles_elem (r : MapRenderer) (z x y : Z) (ts : list RenderTile)
    (t : RenderTile) :
  cell_tiles r z x y = Ok ts → t ∈ ts →
  (is_out_of_bounds r x y = true ∧ z = 0 ∧ t = border_tile r 0 0 (x, y)) ∨
  (is_out_of_bounds r x y = false ∧ render_water_edges r = true ∧
   rt_out_of_bounds t = false ∧
   ∃ sym, grid_symbol (r_map r) z y x = Ok sym ∧ sym ≠ " " ∧
          (rt_tile t = sym ∨
           (m_tiles (r_map r) !! sym = Some "wtr" ∧
            (rt_tile t ∈ cap_names ∨
             ∃ codes, codes ≠ [] ∧ codes `sublist_of` ["n"; "s"; "e"; "w"] ∧
                      rt_tile t = "wtr_" +:+ String.concat "" codes)))).
Proof.
  unfold cell_tiles. intros H Ht. apply fmap_Ok in H as (layers0 & H & ->).
  destruct (is_out_of_bounds r x y) eqn:Hoob.
  { destruct (decide (z = 0)) as [->|Hz].
    - rewrite cell_body_border in H by done. injection H as <-.
      apply list_elem_of_singleton in Ht. by left.
    - rewrite cell_body_outside in H by done. injection H as <-.
      by apply elem_of_nil in Ht. }
  right.
  destruct (grid_symbol (r_map r) z y x) as [sym|e] eqn:Hsym;
    [|by rewrite (cell_body_raise r 0 0 z x y [] e) in H].
  destruct (decide (sym = " ")) as [->|Hblank].
  { rewrite cell_body_blank in H by done. injection H as <-.
    by apply elem_of_nil in Ht. }
  destruct (render_water_edges r) eqn:Hflag.
  2:{ rewrite (cell_body_edges_off r _ _ z x y sym) in H by done.
      injection H as <-. by apply elem_of_nil in Ht. }
  do 2 (split; [done|]).
  destruct (decide (m_tiles (r_map r) !! sym = Some "wtr")) as [Hwater|Hplain].
  - apply (cell_body_water r 0 0 z x y sym Hflag Hoob Hsym Hblank Hwater) in H
      as (n & s & e & w & nw & sw & se & ne & _ & _ & ->).
    rewrite all_tiles_layers_append, all_tiles_add_caps in Ht.
    cbn [all_tiles fmap list_fmap concat app] in Ht.
    apply elem_of_app in Ht as [Ht|Ht%list_elem_of_singleton].
    + apply elem_of_cap_tiles in Ht as (nb & letter & Hin & _ & ->).
      split; [done|]. exists sym. do 2 (split; [done|]). right.
      split; [done|]. left. cbn [rt_tile]. unfold cap_names.
      rewrite !elem_of_cons, elem_of_nil in Hin.
      destruct Hin as [[= _ ->]|[[= _ ->]|[[= _ ->]|[[= _ ->]|[]]]]]; set_solver.
    + subst t. split; [done|]. exists sym. do 2 (split; [done|]).
      cbn [rt_tile]. rewrite water_tile_edge_codes. case_bool_decide as Hcodes.
      * by left.
      * right. split; [done|]. right. eexists. split; [done|].
        split; [apply edge_codes_sublist|done].
  - rewrite (cell_body_plain r _ _ z x y sym) in H by done. injection H as <-.
    apply list_elem_of_singleton in Ht. subst t.
    split; [done|]. exists sym. do 2 (split; [done|]). by left.
Qed.

(** ** Border tiles *)

(** X4. The tiles flagged out of bounds in a result are exactly the
    border tiles of the visited cells that lie outside the grid, one
    position per such cell, all of z-level 0 (the map having a z-level);
    a full-map run, which visits the grid only, yields none. *)
Theorem border_tiles_exact (r : MapRenderer) (full_map : bool) (layers : Layers) :
  tile_mapper r full_map = Ok layers →
  0 < depth r →
  (∀ t, t ∈ all_tiles layers ∧ rt_out_of_bounds t = true ↔
        ∃ x y, (x, y) ∈ cells r full_map ∧ is_out_of_bounds r x y = true ∧
               t = border_tile r (x_origin r full_map) (y_origin r full_map) (x, y)) ∧
  (full_map = true → ∀ t, t ∈ all_tiles layers → rt_out_of_bounds t = false).
Proof.
  intros Hrun Hdepth.
  assert (∀ t, t ∈ all_tiles layers → rt_out_of_bounds t = true →
               ∃ x y, (x, y) ∈ cells r full_map ∧ is_out_of_bounds r x y = true ∧
                      t = border_tile r (x_origin r full_map) (y_origin r full_map)
                            (x, y)) as Hborder.
  { intros t Ht Hflag.
    apply (tile_mapper_elem r full_map layers t Hrun) in Ht
      as (z & x & y & ts & t0 & _ & Hcell & Hts & Ht0 & ->).
    destruct (cell_tiles_elem r z x y ts t0 Hts Ht0)
      as [(Hoob & -> & ->)|(_ & _ & Hin & _)].
    - exists x, y. by rewrite border_tile_shift.
    - unfold shift_tile in Hflag. simpl in Hflag. congruence. }
  split; [intros t; split|].
  - intros [Ht Hflag]. by apply Hborder.
  - intros (x & y & Hcell & Hoob & ->). split; [|done].
    apply (tile_mapper_elem r full_map layers _ Hrun).
    exists 0, x, y, [border_tile r 0 0 (x, y)], (border_tile r 0 0 (x, y)).
    split; [lia|]. split; [done|]. split; [by apply cell_tiles_border|].
    split; [by left|]. by rewrite border_tile_shift.
  - intros -> t Ht. apply not_true_is_false. intros Hflag.
    destruct (Hborder t Ht Hflag) as (x & y & Hcell & Hoob & _).
    apply (elem_of_cells r true) in Hcell.
    apply is_out_of_bounds_false in Hcell. congruence.
Qed.

Lemma border_tiles_exact_witness :
  ∃ layers, tile_mapper lake_window false = Ok layers ∧
            mkRenderTile 80 0 0 "g" true ∈ all_tiles layers.
Proof.
  destruct (tile_mapper lake_window false) as [layers|e] eqn:Hrun;
    [|vm_compute in Hrun; discriminate Hrun].
  exists layers. split; [done|].
  apply (proj1 (border_tiles_exact lake_window false layers Hrun
                  ltac:(unfold depth; simpl; lia))).
  exists 3, 1. split; [|split; reflexivity].
  apply (elem_of_cells lake_window false). simpl. lia.
Defined.

(** ** Edge rendering switched off, in general *)

(** X5. With [render_water_edges] false the loop body is left before
    any cell of the grid gets a tile: whatever a run returns consists of
    border tiles only (z-level 0, flagged out of bounds), and a full-map
    run returns the empty collection. *)
Theorem edges_off_only_border (r : MapRenderer) (full_map : bool) (layers : Layers) :
  render_water_edges r = false →
  tile_mapper r full_map = Ok layers →
  (∀ t, t ∈ all_tiles layers →
        rt_out_of_bounds t = true ∧ rt_z t = 0 ∧ rt_tile t = m_border (r_map r)) ∧
  (full_map = true → layers = []).
Proof.
  intros Hflag Hrun. split.
  - intros t Ht.
    apply (tile_mapper_elem r full_map layers t Hrun) in Ht
      as (z & x & y & ts & t0 & _ & _ & Hts & Ht0 & ->).
    destruct (cell_tiles_elem r z x y ts t0 Hts Ht0)
      as [(_ & _ & ->)|(_ & Hon & _)]; [done|congruence].
  - intros ->. by apply (tile_mapper_edges_off r).
Qed.

Lemma edges_off_only_border_witness :
  ∃ layers,
    tile_mapper lake_window_off false = Ok layers ∧
    length (all_tiles layers) = 5%nat ∧
    ∀ t, t ∈ all_tiles layers → rt_out_of_bounds t = true ∧ rt_tile t = "g".
Proof.
  destruct (tile_mapper lake_window_off false)
    as [layers|e] eqn:Hrun; [|vm_compute in Hrun; discriminate Hrun].
  exists layers. split; [done|]. split.
  - vm_compute in Hrun. injection Hrun as <-. reflexivity.
  - intros t Ht.
    destruct (proj1 (edges_off_only_border lake_window_off false layers eq_refl Hrun)
                t Ht) as (Hflag & _ & Htile).
    done.
Defined.

(** ** What a drawn tile refers to *)

Lemma get_tile_name_nonempty (r : MapRenderer) (tile_type : string) :
  tile_type ≠ "" → get_tile_name r tile_type ≠ "".
Proof.
  intros Hne. unfold get_tile_name.
  destruct (m_tiles (r_map r) !! tile_type) as [t|]; [|done].
  by case_bool_decide.
Qed.

(** X6. A tile of the grid (not flagged out of bounds) in a result
    refers to a non-blank one-character symbol of the map, to
    [wtr_<codes>] for a non-empty sublist of n, s, e, w, or to one of
    the four caps. So the blank is never drawn, and the name of the file
    [get_tile] opens for the tile is never empty. *)
Theorem drawn_references (r : MapRenderer) (full_map : bool) (layers : Layers)
    (t : RenderTile) :
  tile_mapper r full_map = Ok layers →
  t ∈ all_tiles layers →
  rt_out_of_bounds t = false →
  (String.length (rt_tile t) = 1%nat ∨
   rt_tile t ∈ cap_names ∨
   ∃ codes, codes ≠ [] ∧ codes `sublist_of` ["n"; "s"; "e"; "w"] ∧
            rt_tile t = "wtr_" +:+ String.concat "" codes) ∧
  rt_tile t ≠ " " ∧ rt_tile t ≠ "" ∧ get_tile_name r (rt_tile t) ≠ "".
Proof.
  intros Hrun Ht Hflag.
  apply (tile_mapper_elem r full_map layers t Hrun) in Ht
    as (z & x & y & ts & t0 & _ & _ & Hts & Ht0 & ->).
  cbn [shift_tile rt_tile rt_out_of_bounds] in *.
  destruct (cell_tiles_elem r z x y ts t0 Hts Ht0)
    as [(_ & _ & ->)|(_ & _ & _ & sym & Hsym & Hblank & Hkind)]; [done|].
  apply grid_symbol_length in Hsym.
  assert (rt_tile t0 ≠ " " ∧ rt_tile t0 ≠ "") as [Hb He].
  { destruct Hkind as [->|(_ & [Hcap|(codes & _ & _ & ->)])].
    - split; [done|]. by destruct sym.
    - unfold cap_names in Hcap. rewrite !elem_of_cons, elem_of_nil in Hcap.
      destruct Hcap as [->|[->|[->|[->|[]]]]]; by split.
    - by split. }
  split; [|by split; [|split; [|apply get_tile_name_nonempty]]].
  destruct Hkind as [->|(_ & [Hcap|Hedge])]; [by left|by right; left|by right; right].
Qed.

Lemma drawn_references_witness :
  ∃ layers, tile_mapper lake_window false = Ok layers ∧
            get_tile_name lake_window "wtr_new" ≠ "".
Proof.
  destruct (tile_mapper lake_window false) as [layers|e] eqn:Hrun;
    [|vm_compute in Hrun; discriminate Hrun].
  exists layers. split; [done|].
  apply (drawn_references lake_window false layers
           (mkRenderTile 0 0 0 "wtr_new" false) Hrun); [|reflexivity].
  vm_compute in Hrun. injection Hrun as <-.
  apply (bool_decide_unpack _). vm_compute. exact I.
Defined.

(** ** Tiles and the canvas *)

Lemma elem_of_range_step_0 (w x : Z) :
  x ∈ range_step 0 w TILE_SIZE ↔ 0 ≤ x < w ∧ ∃ k, x = k * TILE_SIZE.
Proof.
  unfold range_step, TILE_SIZE. rewrite list_elem_of_fmap.
  pose proof (Z.div_mod (w - 0 + 40 - 1) 40 ltac:(lia)) as Hdiv.
  pose proof (Z.mod_pos_bound (w - 0 + 40 - 1) 40 ltac:(lia)) as Hmod.
  revert Hdiv Hmod.
  generalize ((w - 0 + 40 - 1) `div` 40) ((w - 0 + 40 - 1) `mod` 40).
  intros q m Hdiv Hmod. split.
  - intros (i & -> & Hi%elem_of_seq). split; [lia|]. by exists (Z.of_nat i).
  - intros [Hx [k ->]]. exists (Z.to_nat k). split; [lia|].
    apply elem_of_seq. lia.
Qed.

(** X7. Every tile of a result sits on a slot of the background fill of
    [render]: its pixel position is one of the positions at which the
    base layer receives the default tile, so it is a multiple of
    [TILE_SIZE] in both coordinates and the tile lies wholly inside the
    canvas. (For the window this uses [visibility = 2 * radius + 1],
    which construction establishes.) *)
Theorem tiles_on_fill_positions (r : MapRenderer) (full_map : bool) (layers : Layers)
    (t : RenderTile) :
  visibility r = 2 * radius r + 1 →
  tile_mapper r full_map = Ok layers →
  t ∈ all_tiles layers →
  (rt_x t, rt_y t) ∈ fill_positions r full_map ∧
  0 ≤ rt_x t ∧ rt_x t + TILE_SIZE ≤ (image_size r full_map).1 ∧
  0 ≤ rt_y t ∧ rt_y t + TILE_SIZE ≤ (image_size r full_map).2.
Proof.
  intros Hvis Hrun Ht.
  apply (tile_mapper_elem r full_map layers t Hrun) in Ht
    as (z & x & y & ts & t0 & _ & Hcell & Hts & Ht0 & ->).
  pose proof (cell_tiles_at_cell r z x y ts Hts) as Hat.
  rewrite Forall_forall in Hat. destruct (Hat t0 Ht0) as (Hx & Hy & _).
  apply elem_of_cells in Hcell.
  unfold fill_positions. rewrite elem_of_product, !elem_of_range_step_0.
  cbn [shift_tile rt_x rt_y]. rewrite Hx, Hy.
  set (ox := x_origin r full_map). set (oy := y_origin r full_map).
  assert (0 ≤ x - ox ∧ (x - ox + 1) * TILE_SIZE ≤ (image_size r full_map).1 ∧
          0 ≤ y - oy ∧ (y - oy + 1) * TILE_SIZE ≤ (image_size r full_map).2)
    as (Hx0 & Hx1 & Hy0 & Hy1).
  { subst ox oy.
    destruct full_map; cbn [image_size fst snd x_origin y_origin bounds] in *;
      unfold TILE_SIZE; [lia|]. rewrite Hvis. lia. }
  unfold TILE_SIZE in *.
  split; [split; (split; [lia|])|lia].
  - exists (x - ox). lia.
  - exists (y - oy). lia.
Qed.

Lemma tiles_on_fill_positions_witness :
  ∃ layers, tile_mapper lake_window false = Ok layers ∧
            (80, 0) ∈ fill_positions lake_window false.
Proof.
  destruct (tile_mapper lake_window false) as [layers|e] eqn:Hrun;
    [|vm_compute in Hrun; discriminate Hrun].
  exists layers. split; [done|].
  apply (tiles_on_fill_positions lake_window false layers
           (mkRenderTile 80 0 0 "g" true) eq_refl Hrun).
  vm_compute in Hrun. injection Hrun as <-.
  apply (bool_decide_unpack _). vm_compute. exact I.
Defined.

(** ** A window beside the grid *)

Lemma range_cons (a b : Z) : a < b → range a b = a :: range (a + 1) b.
Proof.
  intros Hab. unfold range.
  replace (Z.to_nat (b - a)) with (S (Z.to_nat (b - (a + 1)))) by lia.
  cbn [seq fmap list_fmap]. f_equal; [lia|].
  rewrite <-fmap_S_seq, <-list_fmap_compose. apply list_fmap_ext.
  intros i j _. simpl. lia.
Qed.

Lemma for_each_cells_border (r : MapRenderer) (ox oy : Z) (cs : list (Z * Z))
    (layers : Layers) :
  (∀ x y, (x, y) ∈ cs → is_out_of_bounds r x y = true) →
  for_each (cell_body r ox oy 0) cs layers
  = Ok (foldl (λ layers c, layers_append 0 (border_tile r ox oy c) layers) layers cs).
Proof.
  revert layers. induction cs as [|[x y] cs IH]; intros layers Hout;
    cbn [for_each foldl]; [done|].
  rewrite cell_body_border by (apply Hout; by left). run_bind.
  apply IH. intros x' y' Hin. apply Hout. by right.
Qed.

Lemma foldl_append_0 (f : Z * Z → RenderTile) (cs : list (Z * Z))
    (ts : list RenderTile) :
  foldl (λ layers c, layers_append 0 (f c) layers) [(0, ts)] cs
  = [(0, ts ++ (f <$> cs))].
Proof.
  revert ts. induction cs as [|c cs IH]; intros ts; cbn [foldl fmap list_fmap].
  - by rewrite app_nil_r.
  - cbn [layers_append]. rewrite bool_decide_eq_true_2 by done.
    rewrite IH. by rewrite <-app_assoc.
Qed.

(** X8. A window that does not meet the grid (viewer further than the
    radius beyond one side, on a map with a z-level): the windowed
    [tile_mapper] returns a single layer, layer 0, holding one border
    tile per cell of the window, in visiting order. *)
Theorem window_off_grid (r : MapRenderer) :
  0 < depth r → 0 ≤ radius r →
  r_x r + radius r < 0 ∨ cols r ≤ r_x r - radius r ∨
  r_y r + radius r < 0 ∨ rows r ≤ r_y r - radius r →
  tile_mapper r false
  = Ok [(0, border_tile r (x_origin r false) (y_origin r false) <$> cells r false)].
Proof.
  intros Hdepth Hrad Hoff.
  assert (∀ x y, (x, y) ∈ cells r false → is_out_of_bounds r x y = true) as Hout.
  { intros x y Hin. apply (elem_of_cells r false) in Hin.
    apply is_out_of_bounds_true. lia. }
  rewrite tile_mapper_unfold, range_cons by done. cbn [for_each].
  rewrite for_each_cells_border by done. run_bind.
  destruct (cells r false) as [|c cs] eqn:Hcells.
  { apply (f_equal length) in Hcells. unfold cells in Hcells.
    cbn [bounds] in Hcells. rewrite length_product, !length_range in Hcells.
    simpl in Hcells. lia. }
  cbn [foldl layers_append]. rewrite foldl_append_0.
  apply for_each_skip. intros z Hz%elem_of_range.
  apply for_each_skip. intros [x y] Hin.
  apply cell_body_outside; [lia|]. by apply Hout.
Qed.

Lemma window_off_grid_witness :
  tile_mapper (mkMapRenderer pond 1 1 1 0 5 5 true) false
  = Ok [(0, [mkRenderTile 0 0 0 "w" true])].
Proof.
  rewrite (window_off_grid (mkMapRenderer pond 1 1 1 0 5 5 true));
    [reflexivity|unfold depth; simpl; lia|simpl; lia|simpl; lia].
Defined.

(** ** Which layer a tile goes to *)

Lemma for_each_invariant {A S : Type} (body : A → S → result S) (I : S → Prop)
    (l : list A) (s s' : S) :
  (∀ a s0 s1, a ∈ l → I s0 → body a s0 = Ok s1 → I s1) →
  I s → for_each body l s = Ok s' → I s'.
Proof.
  revert s. induction l as [|a l IH]; intros s Hstep Hs H; cbn [for_each] in H.
  - by injection H as <-.
  - apply bind_Ok in H as (s1 & Hbody & H).
    apply (IH s1); [|by eapply Hstep; [left| |]|done].
    intros a' s0 s2 Hin. apply Hstep. by right.
Qed.







(** ** Caps on a map with a single z-level *)

(** X10. While z-level 0 is being visited from the empty collection,
    as on a map with a single z-level, the caps of a water cell do open
    layers of their own: whatever cells have been visited before, the
    keys the caps are added under are [len + 1], [len + 2], ..., one per
    cap, none of them in use before and all above layer 0; the cell's
    own tile is then appended to layer 0. *)
Theorem single_level_caps_fresh (r : MapRenderer) (ox oy x y : Z) (sym : string)
    (visited : list (Z * Z)) (layers layers' : Layers) :
  for_each (cell_body r ox oy 0) visited [] = Ok layers →
  render_water_edges r = true →
  is_out_of_bounds r x y = false →
  grid_symbol (r_map r) 0 y x = Ok sym →
  sym ≠ " " →
  m_tiles (r_map r) !! sym = Some "wtr" →
  cell_body r ox oy 0 (x, y) layers = Ok layers' →
  ∃ caps main,
    layers' = layers_append 0 main (foldl add_cap layers caps) ∧
    layer_keys (foldl add_cap layers caps)
    = layer_keys layers ++
      ((λ i : nat, layers_len layers + 1 + Z.of_nat i) <$> seq 0 (length caps)) ∧
    ∀ i : nat, (i < length caps)%nat →
               1 ≤ layers_len layers + 1 + Z.of_nat i ∧
               layers_len layers + 1 + Z.of_nat i ∉ layer_keys layers.
Proof.
  intros Hvisited Hflag Hoob Hsym Hblank Hwater H.
  assert (keys_bounded layers) as Hb.
  { apply (for_each_invariant _ keys_bounded) in Hvisited; [done| |].
    - intros [x' y'] layers0 layers1 _ Hb0 Hcell.
      by eapply cell_body_keys_bounded.
    - by intros k Hk%elem_of_nil. }
  apply (cell_body_water r ox oy 0 x y sym Hflag Hoob Hsym Hblank Hwater) in H
    as (n & s & e & w & nw & sw & se & ne & _ & _ & ->).
  do 2 eexists. split; [done|].
  split; [by apply add_caps_fresh|].
  intros i Hi. unfold layers_len. split; [lia|].
  intros Hin. apply Hb in Hin. unfold layers_len in Hin. lia.
Qed.

Lemma single_level_caps_fresh_witness :
  ∃ layers', cell_body lake_renderer 0 0 0 (1, 1)
               [(0, [mkRenderTile 0 0 0 "g" false; mkRenderTile 0 40 0 "g" false;
                     mkRenderTile 0 80 0 "wtr_n" false;
                     mkRenderTile 40 0 0 "g" false])] = Ok layers' ∧
             layer_keys layers' = [0; 2; 3].
Proof.
  destruct (cell_body lake_renderer 0 0 0 (1, 1)
              [(0, [mkRenderTile 0 0 0 "g" false; mkRenderTile 0 40 0 "g" false;
                    mkRenderTile 0 80 0 "wtr_n" false;
                    mkRenderTile 40 0 0 "g" false])]) as [layers'|e] eqn:Hrun;
    [|vm_compute in Hrun; discriminate Hrun].
  exists layers'. split; [done|].
  destruct (single_level_caps_fresh lake_renderer 0 0 1 1 "w"
              [(0, 0); (0, 1); (0, 2); (1, 0)] _ layers'
              eq_refl eq_refl eq_refl eq_refl ltac:(discriminate) eq_refl Hrun)
    as (caps & main & -> & Hkeys & _).
  vm_compute in Hrun. injection Hrun as Hrun.
  apply (f_equal layer_keys) in Hrun. exact (eq_sym Hrun).
Defined.

(** ** Water inside the water *)

Lemma opens_false (m : Map) (nb : RenderTile) :
  rt_out_of_bounds nb = true ∨
  (∃ name, tile_name_of m (rt_tile nb) = Ok name ∧ name ∈ WATER_EDGE_CANCELERS) →
  opens m nb = false ∧ resolves m nb.
Proof.
  unfold opens, resolves. intros [->|(name & Hname & Hin)]; [by split; [|left]|].
  rewrite Hname. split; [|right; by exists name].
  rewrite bool_decide_eq_false_2 by tauto. apply andb_false_r.
Qed.

(** X11. A water cell all of whose eight neighbors are out of bounds or
    have an edge-canceling sprite (their own, or the default category's
    for an unmapped symbol such as the blank) gets exactly one tile, its
    own symbol without suffix, appended to its z-level, and no cap, and
    the loop body raises nothing. *)
Theorem landlocked_water (r : MapRenderer) (ox oy z x y : Z) (sym : string)
    (ns : list RenderTile) (layers : Layers) :
  render_water_edges r = true →
  is_out_of_bounds r x y = false →
  grid_symbol (r_map r) z y x = Ok sym →
  sym ≠ " " →
  m_tiles (r_map r) !! sym = Some "wtr" →
  get_neighbors r x y z = Ok ns →
  (∀ nb, nb ∈ ns →
         rt_out_of_bounds nb = true ∨
         ∃ name, tile_name_of (r_map r) (rt_tile nb) = Ok name ∧
                 name ∈ WATER_EDGE_CANCELERS) →
  cell_body r ox oy z (x, y) layers
  = Ok (layers_append z
          (mkRenderTile ((x - ox) * TILE_SIZE) ((y - oy) * TILE_SIZE) z sym false)
          layers).
Proof.
  intros Hflag Hoob Hsym Hblank Hwater Hns Hall.
  pose proof Hns as Hshape.
  apply get_neighbors_iff in Hshape as (n & s & e & w & nw & sw & se & ne & -> & _).
  assert (∀ nb, nb ∈ [n; s; e; w; nw; sw; se; ne] →
                opens (r_map r) nb = false ∧ resolves (r_map r) nb) as Hno.
  { intros nb Hnb. by apply opens_false, Hall. }
  apply (cell_body_water r ox oy z x y sym Hflag Hoob Hsym Hblank Hwater).
  exists n, s, e, w, nw, sw, se, ne. split; [done|]. split.
  - apply Forall_forall. intros nb Hnb. by apply Hno.
  - unfold edge_codes, cap_tiles.
    rewrite (proj1 (Hno n ltac:(set_solver))), (proj1 (Hno s ltac:(set_solver))),
      (proj1 (Hno e ltac:(set_solver))), (proj1 (Hno w ltac:(set_solver))),
      (proj1 (Hno nw ltac:(set_solver))), (proj1 (Hno sw ltac:(set_solver))),
      (proj1 (Hno se ltac:(set_solver))), (proj1 (Hno ne ltac:(set_solver))).
    reflexivity.
Qed.

Lemma landlocked_water_witness :
  init sea 0 0 9 true = Ok sea_renderer ∧
  cell_body sea_renderer 0 0 0 (1, 1) []
  = Ok [(0, [mkRenderTile 40 40 0 "w" false])].
Proof.
  split; [reflexivity|].
  rewrite (landlocked_water sea_renderer 0 0 0 1 1 "w" _ []
             eq_refl eq_refl eq_refl ltac:(discriminate) eq_refl eq_refl);
    [reflexivity|].
  intros nb Hnb. right.
  rewrite !elem_of_cons, elem_of_nil in Hnb.
  destruct Hnb as [->|[->|[->|[->|[->|[->|[->|[->|[]]]]]]]]];
    eexists; (split; [reflexivity|]); apply (bool_decide_unpack _); exact I.
Defined.
